(** * Stock screener front end: file intake, upload and result table

    A shallow embedding of the two observed revisions of the page script:

    - [Script]  : [src/static/js/script.js] (the script the page loads);
    - [Part000] : the script at the head of [src/unnamed/part_000]
                  (an extension-filtering revision of the same file).

    Both revisions share, line for line, the result-table code
    ([appendResults], the remove and clear handlers and
    [updateResultsVisibility]); it is embedded once, in [Page].

    Modelling decisions.
    - The page is a record of the globals the script mutates ([files], the
      DataTable rows, the display style of the results container, the value
      of the file input) together with two logs of what the script does to
      the outside world: the [alert] calls and the [fetch] requests.
    - Every [async] function runs to completion before the next event is
      handled: [await] is sequencing.  An exception (a rejected promise or a
      [throw]) keeps the mutations made so far, as in JavaScript, and
      propagates until a [try]/[catch] stops it.
    - JSZip and the network are outside the script.  [loadAsync] is a
      parameter; the outcome of the one [fetch] of an event is carried by
      the event.
    - The DataTables widget is outside the script too.  [rows] is its
      table by insertion index; the order it displays (its own sort) and
      the warnings it raises itself are not modelled, and [alerts] holds
      the [alert] calls of the script.
    - [Page.item] is an element of [results] that is an object whose
      fields have a string image.  [Raw], [RawScript] and [RawPart000]
      widen this to [null] elements and to fields without a string image,
      and [RawFacts] shows that they agree with [Script] and [Part000] on
      well-formed responses. *)

From Stdlib Require Import String Ascii List Bool Arith Lia DecimalString.
Import ListNotations.
Local Open Scope string_scope.
Local Open Scope list_scope.

(* ================================================================== *)
(** ** JavaScript values and the string primitives the script calls    *)
(* ================================================================== *)

Module Js.

(** The line feed written [\n] in the source. *)
Definition nl : string := String (ascii_of_nat 10) EmptyString.

(** The double quote of the HTML attributes. *)
Definition dq : string := String (ascii_of_nat 34) EmptyString.

(** A value read from the parsed response.  The script only ever
    interpolates such a value in a template, tests its truthiness,
    compares it with a string by [!==], or calls [split] on it; a value
    that is not a string is therefore described by its [String(v)] image
    and its truthiness. *)
Inductive value : Type :=
| VStr (s : string)
| VOther (shown : string) (truthy : bool).

(** [undefined], the value of an absent property. *)
Definition undefined : value := VOther "undefined" false.

(** Template interpolation: [`${v}`]. *)
Definition to_string (v : value) : string :=
  match v with
  | VStr s => s
  | VOther shown _ => shown
  end.

(** ToBoolean: the empty string is the only falsy string. *)
Definition truthy (v : value) : bool :=
  match v with
  | VStr s => negb (Nat.eqb (String.length s) 0)
  | VOther _ b => b
  end.

(** [v !== 'lit']. *)
Definition strict_neq (v : value) (lit : string) : bool :=
  match v with
  | VStr s => negb (String.eqb s lit)
  | VOther _ _ => true
  end.

(** [s.endsWith(suffix)]. *)
Definition endsWith (s suffix : string) : bool :=
  let n := String.length s in
  let k := String.length suffix in
  Nat.leb k n && String.eqb (substring (n - k) k s) suffix.

(** The character class of the regular expression [/[/\\]/]. *)
Definition is_sep (c : ascii) : bool :=
  Ascii.eqb c "/"%char || Ascii.eqb c "\"%char.

(** [s.split(re)] for a regular expression matching one character of a
    class: the segments between the matches, in order.  The result is
    never empty ([''.split(re)] is [['']]). *)
Fixpoint split (sep : ascii -> bool) (s : string) : list string :=
  match s with
  | EmptyString => [EmptyString]
  | String c rest =>
      if sep c then EmptyString :: split sep rest
      else match split sep rest with
           | [] => [String c EmptyString]
           | seg :: segs => String c seg :: segs
           end
  end.

(** [a.pop()] used as an expression: the last element.  The script pops
    the result of [split] only, which has one. *)
Definition pop (a : list string) : string := last a EmptyString.

(** [new Set(a)]: values in order of first insertion. *)
Definition Set_add (st : list string) (x : string) : list string :=
  if existsb (String.eqb x) st then st else st ++ [x].

Definition new_Set (a : list string) : list string :=
  fold_left Set_add a [].

(** [a.join(sep)]. *)
Fixpoint join (sep : string) (a : list string) : string :=
  match a with
  | [] => EmptyString
  | [x] => x
  | x :: rest => x ++ sep ++ join sep rest
  end.

(** [`${n}`] for a non-negative integer. *)
Definition nat_to_string (n : nat) : string :=
  NilEmpty.string_of_uint (Nat.to_uint n).

End Js.

(* ================================================================== *)
(** ** The page: globals, effects, and the shared result-table code    *)
(* ================================================================== *)

Module Page.
Import Js.

(** A [File]: name, declared media type, and content.  [bytes = None]
    is an item whose content cannot be read (a dropped folder). *)
Record File : Type := mkFile {
  name : string;
  type : string;
  bytes : option string
}.

(** One element of the [results] array of the response. *)
Record item : Type := mkItem {
  error : value;
  file_name : value;
  chart_link : value;
  std_dev : value;
  large_changes : value;
  avg_daily_return : value;
  annual_volatility : value;
  sharpe_ratio : value;
  max_drawdown : value;
  positive_days : value;
  moving_average : value;
  bollinger_pctB : value;
  rsi : value;
  volume_spikes : value
}.

(** A thrown value, by its [String(err)] image. *)
Inductive exn : Type := Exn (shown : string).

Definition exn_to_string (e : exn) : string :=
  match e with Exn shown => shown end.

(** A [TypeError] raised by the engine (a method called on [undefined]);
    its message is engine specific and is not modelled. *)
Definition TypeError : exn := Exn "TypeError".

(** What [res.json()] does. *)
Inductive body : Type :=
| BodyRejects (e : exn)              (* the body is not JSON *)
| BodyNoResults                      (* JSON without a [results] array *)
| BodyResults (results : list item).

Record response : Type := mkResponse {
  ok : bool;
  status : nat;
  text : string;
  json : body
}.

(** What [fetch] does. *)
Inductive fetched : Type :=
| FetchRejects (e : exn)
| FetchResolves (res : response).

(** The mutable state of the page and the log of its visible effects. *)
Record page : Type := mkPage {
  files : list File;              (* [let files = []] *)
  rows : list string;             (* the rows of [dataTable] *)
  display : string;               (* [resultsContainer.style.display] *)
  input_value : string;           (* [fileInput.value] *)
  alerts : list string;           (* every [alert(msg)], oldest first *)
  requests : list (list File)     (* the [files] parts of every [fetch] *)
}.

(** The page once loaded: the style sheet hides the results container. *)
Definition initial : page :=
  mkPage [] [] "none" EmptyString [] [].

(** *** A state monad with exceptions that keep the state *)

Inductive outcome (A : Type) : Type :=
| Return (a : A)
| Throw (e : exn).
Arguments Return {A} a.
Arguments Throw {A} e.

Definition M (A : Type) : Type := page -> outcome A * page.

Definition ret {A} (a : A) : M A := fun s => (Return a, s).

Definition throw {A} (e : exn) : M A := fun s => (Throw e, s).

Definition bind {A B} (m : M A) (k : A -> M B) : M B :=
  fun s =>
    match m s with
    | (Return a, s') => k a s'
    | (Throw e, s') => (Throw e, s')
    end.

Definition try_catch {A} (m : M A) (handler : exn -> M A) : M A :=
  fun s =>
    match m s with
    | (Return a, s') => (Return a, s')
    | (Throw e, s') => handler e s'
    end.

Declare Scope js_scope.
Delimit Scope js_scope with js.
Notation "x <- m ;; k" := (bind m (fun x => k))
  (at level 61, m at next level, right associativity) : js_scope.
Notation "m ;; k" := (bind m (fun _ => k))
  (at level 61, right associativity) : js_scope.
Local Open Scope js_scope.

(** [for (let x of xs) await f(x)] and [xs.forEach(f)]. *)
Fixpoint for_of {A} (xs : list A) (f : A -> M unit) : M unit :=
  match xs with
  | [] => ret tt
  | x :: rest => f x ;; for_of rest f
  end.

(** [if (c) { m }]. *)
Definition when (c : bool) (m : M unit) : M unit :=
  if c then m else ret tt.

(** *** Primitive effects *)

Definition get_files : M (list File) := fun s => (Return (files s), s).

Definition set_files (fs : list File) : M unit := fun s =>
  (Return tt,
   mkPage fs (rows s) (display s) (input_value s) (alerts s) (requests s)).

(** [files.push(f)]. *)
Definition push (f : File) : M unit := fun s =>
  (Return tt,
   mkPage (files s ++ [f]) (rows s) (display s) (input_value s)
          (alerts s) (requests s)).

Definition get_rows : M (list string) := fun s => (Return (rows s), s).

Definition set_rows (rs : list string) : M unit := fun s =>
  (Return tt,
   mkPage (files s) rs (display s) (input_value s) (alerts s) (requests s)).

Definition set_display (d : string) : M unit := fun s =>
  (Return tt,
   mkPage (files s) (rows s) d (input_value s) (alerts s) (requests s)).

Definition set_input_value (v : string) : M unit := fun s =>
  (Return tt,
   mkPage (files s) (rows s) (display s) v (alerts s) (requests s)).

Definition alert (msg : string) : M unit := fun s =>
  (Return tt,
   mkPage (files s) (rows s) (display s) (input_value s)
          (alerts s ++ [msg]) (requests s)).

(** [await fetch('/', { method: 'POST', ..., body: fd })]: the request is
    recorded with the parts of [fd]; the promise then settles as the
    environment decides. *)
Definition fetch (fd : list File) (net : fetched) : M response := fun s =>
  let s' := mkPage (files s) (rows s) (display s) (input_value s)
                   (alerts s) (requests s ++ [fd]) in
  match net with
  | FetchRejects e => (Throw e, s')
  | FetchResolves res => (Return res, s')
  end.

(** [const { results } = await res.json()], up to the first use of
    [results] as an array. *)
Definition json_results (res : response) : M (list item) :=
  match json res with
  | BodyRejects e => throw e
  | BodyNoResults => throw TypeError
  | BodyResults results => ret results
  end.

(** [await file.arrayBuffer()]. *)
Definition arrayBuffer (f : File) : M string :=
  match bytes f with
  | Some buf => ret buf
  | None => throw (Exn "NotFoundError")
  end.

(** *** [appendResults] and the table handlers (both revisions) *)

(** [const link = r.chart_link !== 'N/A' ? `<a ...>` : r.file_name]. *)
Definition link (r : item) : string :=
  if strict_neq (chart_link r) "N/A"
  then "<a href=" ++ dq ++ to_string (chart_link r) ++ dq
       ++ " target=" ++ dq ++ "_blank" ++ dq ++ ">"
       ++ to_string (file_name r) ++ "</a>"
  else to_string (file_name r).

(** The twelve spaces that indent the template's lines. *)
Definition indent : string := "            ".

(** The template literal assigned to [tr.innerHTML]. *)
Definition innerHTML (r : item) : string :=
  nl ++ indent ++ "<td>" ++ link r ++ "</td>"
  ++ nl ++ indent ++ "<td>" ++ to_string (std_dev r) ++ "</td>"
  ++ nl ++ indent ++ "<td>" ++ to_string (large_changes r) ++ "</td>"
  ++ nl ++ indent ++ "<td>" ++ to_string (avg_daily_return r) ++ "</td>"
  ++ nl ++ indent ++ "<td>" ++ to_string (annual_volatility r) ++ "</td>"
  ++ nl ++ indent ++ "<td>" ++ to_string (sharpe_ratio r) ++ "</td>"
  ++ nl ++ indent ++ "<td>" ++ to_string (max_drawdown r) ++ "</td>"
  ++ nl ++ indent ++ "<td>" ++ to_string (positive_days r) ++ "</td>"
  ++ nl ++ indent ++ "<td>" ++ to_string (moving_average r) ++ "</td>"
  ++ nl ++ indent ++ "<td>" ++ to_string (bollinger_pctB r) ++ "</td>"
  ++ nl ++ indent ++ "<td>" ++ to_string (rsi r) ++ "</td>"
  ++ nl ++ indent ++ "<td>" ++ to_string (volume_spikes r) ++ "</td>"
  ++ nl ++ indent ++ "<td class=" ++ dq ++ "action-col" ++ dq
  ++ "><button class=" ++ dq ++ "remove-btn" ++ dq
  ++ ">❌</button></td>"
  ++ nl ++ "        ".

(** [dataTable.row.add(tr)]. *)
Definition row_add (tr : string) : M unit :=
  rs <- get_rows ;; set_rows (rs ++ [tr]).

(** [updateResultsVisibility]. *)
Definition updateResultsVisibility : M unit :=
  rs <- get_rows ;;
  let hasRows := Nat.ltb 0 (length rs) in
  set_display (if hasRows then "block" else "none").

(** [appendResults]; [dataTable.draw(false)] repaints and changes none of
    the modelled state. *)
Definition appendResults (results : list item) : M unit :=
  for_of results (fun r => row_add (innerHTML r)) ;;
  updateResultsVisibility.

(** The list without its [i]-th element. *)
Fixpoint remove_nth {A} (i : nat) (l : list A) : list A :=
  match l, i with
  | [], _ => []
  | _ :: rest, 0 => rest
  | x :: rest, S j => x :: remove_nth j rest
  end.

(** The click handler of the remove button in row [i]:
    [dataTable.row(tr).remove().draw(); updateResultsVisibility()]. *)
Definition on_remove_click (i : nat) : M unit :=
  rs <- get_rows ;;
  set_rows (remove_nth i rs) ;;
  updateResultsVisibility.

(** The click handler of the clear button:
    [dataTable.clear().draw(); updateResultsVisibility()]. *)
Definition on_clear_click : M unit :=
  set_rows [] ;;
  updateResultsVisibility.

(** The archive as JSZip presents it: [Object.keys(zip.files)] in order,
    each with what [zip.files[name].async('blob')] settles to ([None]
    when it rejects). *)
Definition archive : Type := list (string * option string).

End Page.

(* ================================================================== *)
(** ** [src/static/js/script.js]                                       *)
(* ================================================================== *)

Module Script.
Import Js Page.
Local Open Scope js_scope.

Section WithJSZip.

(** [JSZip.loadAsync(buf)]; [None] when the promise rejects. *)
Variable loadAsync : string -> option archive.

Definition JSZip_loadAsync (buf : string) : M archive :=
  match loadAsync buf with
  | Some zip => ret zip
  | None => throw (Exn "Error: not a zip file")
  end.

(** [await zip.files[name].async('blob')]. *)
Definition async_blob (settled : option string) : M string :=
  match settled with
  | Some blob => ret blob
  | None => throw (Exn "Error: corrupted entry")
  end.

(** The loop over [Object.keys(zip.files)], with the local
    [validFileFound] threaded through it. *)
Fixpoint extract (entries : archive) (validFileFound : bool) : M bool :=
  match entries with
  | [] => ret validFileFound
  | (entry_name, settled) :: rest =>
      blob <- async_blob settled ;;
      push (mkFile entry_name "text/csv" (Some blob)) ;;
      extract rest true
  end.

Definition processFile (file : File) : M unit :=
  if endsWith (name file) ".zip" then
    buf <- arrayBuffer file ;;
    zip <- JSZip_loadAsync buf ;;
    validFileFound <- extract zip false ;;
    when (negb validFileFound)
         (alert ("ZIP file " ++ dq ++ name file ++ dq
                 ++ " contains no files."))
  else
    push file.

(** The failed names of the consolidated alert:
    [errorResults.map(r => r.file_name.split(/[/\\]/).pop())];
    [split] is a method of strings only. *)
Definition failed_name (r : item) : M string :=
  match file_name r with
  | VStr s => ret (pop (split is_sep s))
  | VOther _ _ => throw TypeError
  end.

Fixpoint map_failed_names (rs : list item) : M (list string) :=
  match rs with
  | [] => ret []
  | r :: rest =>
      n <- failed_name r ;;
      ns <- map_failed_names rest ;;
      ret (n :: ns)
  end.

Definition is_valid (r : item) : bool := negb (truthy (error r)).
Definition is_error (r : item) : bool := truthy (error r).

Definition failed_alert (failedFiles : list string) : string :=
  "The following file"
  ++ (if Nat.ltb 1 (length failedFiles) then "s" else EmptyString)
  ++ " failed to upload:" ++ nl ++ nl ++ join nl failedFiles.

Definition upload_error_message : string :=
  "Could not upload files. Make sure you are uploading valid files (no folders)".

Definition doUpload (net : fetched) : M unit :=
  fs <- get_files ;;
  if Nat.eqb (length fs) 0 then ret tt
  else
    try_catch
      (res <- fetch fs net ;;
       when (negb (ok res))
            (throw (Exn ("Error: Server error (" ++ nat_to_string (status res)
                         ++ "): " ++ text res))) ;;
       results <- json_results res ;;
       let validResults := filter is_valid results in
       let errorResults := filter is_error results in
       when (Nat.ltb 0 (length validResults))
            (appendResults validResults) ;;
       when (Nat.ltb 0 (length errorResults))
            (names <- map_failed_names errorResults ;;
             let failedFiles := new_Set names in
             let failedFilesMsg := join nl failedFiles in
             when (Nat.ltb 0 (String.length failedFilesMsg))
                  (alert (failed_alert failedFiles))) ;;
       set_files [])
      (fun err =>
         alert upload_error_message ;;
         set_files []).

(** The [drop] handler of the drop zone and the [change] handler of the
    file input have the same body. *)
Definition on_files (batch : list File) (net : fetched) : M unit :=
  for_of batch processFile ;;
  set_input_value EmptyString ;;
  doUpload net.

Inductive event : Type :=
| Drop (dt_files : list File) (net : fetched)
| Change (input_files : list File) (net : fetched)
| RemoveClick (i : nat)
| ClearClick.

Definition handle (e : event) : M unit :=
  match e with
  | Drop batch net => on_files batch net
  | Change batch net => on_files batch net
  | RemoveClick i => on_remove_click i
  | ClearClick => on_clear_click
  end.

(** The page after the handler of [e] has settled. *)
Definition step (e : event) (s : page) : page := snd (handle e s).

End WithJSZip.

End Script.

(* ================================================================== *)
(** ** The script of [src/unnamed/part_000]                            *)
(* ================================================================== *)

Module Part000.
Import Js Page.
Local Open Scope js_scope.

Section WithJSZip.

Variable loadAsync : string -> option archive.

Definition JSZip_loadAsync (buf : string) : M archive :=
  match loadAsync buf with
  | Some zip => ret zip
  | None => throw (Exn "Error: not a zip file")
  end.

Definition async_blob (settled : option string) : M string :=
  match settled with
  | Some blob => ret blob
  | None => throw (Exn "Error: corrupted entry")
  end.

(** The loop over [Object.keys(zip.files)]: only [.csv] entries are
    read and queued. *)
Fixpoint extract (entries : archive) : M unit :=
  match entries with
  | [] => ret tt
  | (entry_name, settled) :: rest =>
      when (endsWith entry_name ".csv")
           (blob <- async_blob settled ;;
            push (mkFile entry_name "text/csv" (Some blob))) ;;
      extract rest
  end.

Definition processFile (file : File) : M unit :=
  if endsWith (name file) ".zip" then
    buf <- arrayBuffer file ;;
    zip <- JSZip_loadAsync buf ;;
    extract zip
  else if endsWith (name file) ".csv" then
    push file
  else
    alert ("Unsupported type: " ++ name file).

Definition doUpload (net : fetched) : M unit :=
  fs <- get_files ;;
  if Nat.eqb (length fs) 0 then ret tt
  else
    try_catch
      (res <- fetch fs net ;;
       results <- json_results res ;;
       appendResults results ;;
       set_files [])
      (fun err => alert ("Upload error: " ++ exn_to_string err)).

Definition on_files (batch : list File) (net : fetched) : M unit :=
  for_of batch processFile ;;
  set_input_value EmptyString ;;
  doUpload net.

Inductive event : Type :=
| Drop (dt_files : list File) (net : fetched)
| Change (input_files : list File) (net : fetched)
| RemoveClick (i : nat)
| ClearClick.

Definition handle (e : event) : M unit :=
  match e with
  | Drop batch net => on_files batch net
  | Change batch net => on_files batch net
  | RemoveClick i => on_remove_click i
  | ClearClick => on_clear_click
  end.

Definition step (e : event) (s : page) : page := snd (handle e s).

End WithJSZip.

End Part000.

(* ================================================================== *)
(** ** Vocabulary of the statements                                    *)
(* ================================================================== *)

Module Stated.
Import Js Page.

(** The results area is shown. *)
Definition visible (s : page) : Prop := display s = "block".

(** [needle] occurs in [hay], character for character. *)
Definition occurs_in (needle hay : string) : Prop :=
  exists before after, hay = (before ++ needle ++ after)%string.

(** The number of positions of [hay] at which [needle] starts. *)
Fixpoint count_occurrences (needle hay : string) : nat :=
  match hay with
  | EmptyString => 0
  | String _ rest =>
      (if prefix needle hay then 1 else 0) + count_occurrences needle rest
  end.

(** The eleven metric fields, in column order. *)
Definition metrics (r : item) : list value :=
  [std_dev r; large_changes r; avg_daily_return r; annual_volatility r;
   sharpe_ratio r; max_drawdown r; positive_days r; moving_average r;
   bollinger_pctB r; rsi r; volume_spikes r].

(** The row as the specification words it: a first cell that is an anchor
    to the chart when a chart link is given and the bare file name
    otherwise, then one cell per metric, then the action cell. *)
Definition anchor (href label : string) : string :=
  "<a href=" ++ dq ++ href ++ dq ++ " target=" ++ dq ++ "_blank" ++ dq
  ++ ">" ++ label ++ "</a>".

Definition first_cell (r : item) : string :=
  match chart_link r with
  | VStr s =>
      if String.eqb s "N/A" then to_string (file_name r)
      else anchor s (to_string (file_name r))
  | VOther shown _ => anchor shown (to_string (file_name r))
  end.

Definition cell (content : string) : string :=
  nl ++ indent ++ "<td>" ++ content ++ "</td>".

Definition action_cell : string :=
  nl ++ indent ++ "<td class=" ++ dq ++ "action-col" ++ dq
  ++ "><button class=" ++ dq ++ "remove-btn" ++ dq ++ ">❌</button></td>".

Fixpoint concat_all (parts : list string) : string :=
  match parts with
  | [] => EmptyString
  | p :: rest => p ++ concat_all rest
  end.

Definition described_row (r : item) : string :=
  concat_all (map cell (first_cell r :: map to_string (metrics r)))
  ++ action_cell ++ nl ++ "        ".

(** A computation that, when it returns, leaves the queue empty. *)
Definition clears {A} (m : M A) : Prop :=
  forall s, match m s with
            | (Return _, s') => files s' = []
            | (Throw _, _) => True
            end.

(** A computation that leaves a component of the page as it found it,
    whether it returns or throws. *)
Definition keeps {X A} (proj : page -> X) (m : M A) : Prop :=
  forall s, proj (snd (m s)) = proj s.

(** What makes the upload of [part_000] throw inside its [try]. *)
Definition legacy_upload_throws (net : fetched) : option exn :=
  match net with
  | FetchRejects e => Some e
  | FetchResolves res =>
      match json res with
      | BodyRejects e => Some e
      | BodyNoResults => Some TypeError
      | BodyResults _ => None
      end
  end.

(** The display of the results container agrees with the table. *)
Definition table_consistent (s : page) : Prop :=
  display s = if Nat.ltb 0 (length (rows s)) then "block" else "none".

(** What an upload can do to the table, in either revision: nothing, or
    append [added] and recompute the display. *)
Definition table_step (s s' : page) (added : list string) : Prop :=
  (rows s' = rows s /\ display s' = display s /\ added = [])
  \/ (rows s' = rows s ++ added
      /\ display s' = if Nat.ltb 0 (length (rows s')) then "block" else "none").

(** The page after a sequence of events, oldest first. *)
Definition run {E} (step : E -> page -> page) (events : list E) (s : page)
  : page :=
  fold_left (fun st e => step e st) events s.

(** The last path segment of a reported file name. *)
Definition basename (file : string) : string := pop (split is_sep file).

(** The file names accepted as plain files where the script filters by
    extension, and the names treated as bundles. *)
Definition is_csv (f : File) : bool := endsWith (name f) ".csv".
Definition is_zip (f : File) : bool := endsWith (name f) ".zip".

(** The notice of [part_000] for a plain item it does not accept. *)
Definition unsupported_notice (f : File) : string :=
  "Unsupported type: " ++ name f.

(** The entries [part_000] reads from an archive. *)
Definition is_csv_entry (e : string * option string) : bool :=
  endsWith (fst e) ".csv".

(** The [File] built for an archive entry. *)
Definition entry_file (e : string * option string) : File :=
  mkFile (fst e) "text/csv" (snd e).

End Stated.

(* ================================================================== *)
(** ** The rest of the page script: theme toggle and drag highlight    *)
(* ================================================================== *)

Module Dom.

(** A [classList]: the tokens of a [class] attribute, in order. *)
Definition classList : Type := list string.

Definition contains (token : string) (cl : classList) : bool :=
  existsb (String.eqb token) cl.

(** [cl.add(token)]. *)
Definition add (token : string) (cl : classList) : classList :=
  if contains token cl then cl else cl ++ [token].

(** [cl.remove(token)]. *)
Definition remove (token : string) (cl : classList) : classList :=
  filter (fun t => negb (String.eqb token t)) cl.

(** [cl.toggle(token)]: the new list and the returned boolean. *)
Definition toggle (token : string) (cl : classList) : classList * bool :=
  if contains token cl then (remove token cl, false)
  else (add token cl, true).

(** [cl.toggle(token, force)]. *)
Definition toggle_force (token : string) (force : bool) (cl : classList)
  : classList * bool :=
  if force then (add token cl, true) else (remove token cl, false).

End Dom.

(** The [DOMContentLoaded] handler, as far as the theme goes (lines 10-20
    of both revisions; [part_000] calls the button [toggle]). *)
Module Theme.
Import Dom.

Record ui : Type := mkUi {
  darkMode : option string;       (* [localStorage.getItem('darkMode')] *)
  body_classList : classList;     (* [document.body.classList] *)
  textContent : string            (* of the [dark-mode-toggle] button *)
}.

Definition sun : string := "☀️".
Definition moon : string := "🌙".

(** [String(b)], as [localStorage.setItem] stores a boolean. *)
Definition bool_to_string (b : bool) : string :=
  if b then "true" else "false".

(** [localStorage.getItem('darkMode') === 'true']. *)
Definition stored_dark (item : option string) : bool :=
  match item with
  | Some v => String.eqb v "true"
  | None => false
  end.

Definition on_DOMContentLoaded (u : ui) : ui :=
  let dark := stored_dark (darkMode u) in
  let (cl, _) := toggle_force "dark-mode" dark (body_classList u) in
  mkUi (darkMode u) cl (if dark then sun else moon).

(** The click handler of the button. *)
Definition on_toggle_click (u : ui) : ui :=
  let (cl, isDark) := toggle "dark-mode" (body_classList u) in
  mkUi (Some (bool_to_string isDark)) cl (if isDark then sun else moon).

(** The document as the markup gives it (a [body] without classes, a
    button showing the moon), once its [DOMContentLoaded] handler has
    run. *)
Definition open_page (stored : option string) : ui :=
  on_DOMContentLoaded (mkUi stored [] moon).

Definition is_dark (u : ui) : bool := contains "dark-mode" (body_classList u).

(** The page agrees with itself: the icon and the stored flag say what the
    body class says. *)
Definition coherent (u : ui) : Prop :=
  textContent u = (if is_dark u then sun else moon)
  /\ stored_dark (darkMode u) = is_dark u.

(** [n] clicks on the button. *)
Fixpoint clicks (n : nat) (u : ui) : ui :=
  match n with
  | 0 => u
  | S k => clicks k (on_toggle_click u)
  end.

End Theme.

(** The four drag listeners of the drop zone (lines 40-45 of both
    revisions). *)
Module DropZone.
Import Dom.

Definition drag_events : list string :=
  ["dragenter"; "dragover"; "dragleave"; "drop"].

(** The listener registered for the event named [e], acting on
    [dropZone.classList]:
    [classList[e.startsWith('dragl') ? 'remove' : 'add']('dragover')]. *)
Definition on_drag (e : string) (cl : classList) : classList :=
  if prefix "dragl" e then remove "dragover" cl else add "dragover" cl.

(** The class list after the listeners of a sequence of events. *)
Definition after (events : list string) (cl : classList) : classList :=
  fold_left (fun c e => on_drag e c) events cl.

End DropZone.

(* ================================================================== *)
(** ** Vocabulary of the further statements                            *)
(* ================================================================== *)

Module Observed.
Import Js Page Stated.

(** The outcomes on which the [try] of [script.js] throws before it has
    looked at any item: the request fails, the status is not a success,
    the body is not JSON, or it has no [results] array. *)
Definition script_upload_fails (net : fetched) : bool :=
  match net with
  | FetchRejects _ => true
  | FetchResolves res =>
      negb (ok res)
      || match json res with
         | BodyResults _ => false
         | _ => true
         end
  end.

Definition settled (e : string * option string) : bool :=
  match snd e with Some _ => true | None => false end.

(** What [processFile] of [script.js] does with one item when it returns:
    the files it queues and the notices it raises.  [None] when it
    throws. *)
Definition script_item (loadAsync : string -> option archive) (f : File)
  : option (list File * list string) :=
  if is_zip f then
    match bytes f with
    | None => None
    | Some buf =>
        match loadAsync buf with
        | None => None
        | Some zip =>
            if forallb settled zip then
              Some (map entry_file zip,
                    match zip with
                    | [] => [("ZIP file " ++ dq ++ name f ++ dq
                              ++ " contains no files.")%string]
                    | _ :: _ => []
                    end)
            else None
        end
    end
  else Some ([f], []).

(** The same for [part_000]; an entry that is not read cannot fail. *)
Definition legacy_item (loadAsync : string -> option archive) (f : File)
  : option (list File * list string) :=
  if is_zip f then
    match bytes f with
    | None => None
    | Some buf =>
        match loadAsync buf with
        | None => None
        | Some zip =>
            if forallb settled (filter is_csv_entry zip) then
              Some (map entry_file (filter is_csv_entry zip), [])
            else None
        end
    end
  else if is_csv f then Some ([f], [])
  else Some ([], [unsupported_notice f]).

(** A whole batch, item by item. *)
Fixpoint batch_items (item : File -> option (list File * list string))
         (batch : list File) : option (list File * list string) :=
  match batch with
  | [] => Some ([], [])
  | f :: rest =>
      match item f, batch_items item rest with
      | Some (fs, ns), Some (fs', ns') => Some (fs ++ fs', ns ++ ns')
      | _, _ => None
      end
  end.

(** A character of a string. *)
Fixpoint has_char (p : ascii -> bool) (s : string) : bool :=
  match s with
  | EmptyString => false
  | String c rest => p c || has_char p rest
  end.

End Observed.

(* ================================================================== *)
(** ** Sample inputs                                                   *)
(* ================================================================== *)

Module Demo.
Import Js Page.

(** A stand-in for JSZip on three buffers: an archive with one CSV and
    one text entry, an archive with a text entry only, an empty archive;
    any other buffer is rejected as corrupt. *)
Definition loadAsync (buf : string) : option archive :=
  if String.eqb buf "PK:mixed" then
    Some [("prices/aapl.csv", Some "20240101,1,2,0,1,10");
          ("readme.txt", Some "notes")]
  else if String.eqb buf "PK:text" then
    Some [("readme.txt", Some "notes")]
  else if String.eqb buf "PK:empty" then
    Some []
  else None.

Definition a_csv : File := mkFile "a.csv" "text/csv" (Some "20240101,1,2,0,1,10").
Definition c_csv : File := mkFile "c.csv" "text/csv" (Some "20240102,1,2,0,1,10").
Definition notes_txt : File := mkFile "notes.txt" "text/plain" (Some "hello").
Definition mixed_zip : File := mkFile "mixed.zip" "application/zip" (Some "PK:mixed").
Definition text_zip : File := mkFile "text.zip" "application/zip" (Some "PK:text").
Definition empty_zip : File := mkFile "empty.zip" "application/zip" (Some "PK:empty").
Definition bad_zip : File := mkFile "bad.zip" "application/zip" (Some "garbage").

Definition num (shown : string) : value := VOther shown true.

(** A success item and two error items. *)
Definition good (file chart : string) : item :=
  mkItem undefined (VStr file) (VStr chart)
         (num "1.2") (num "3") (num "0.1") (num "19.0") (num "0.8")
         (num "-12.5") (num "52.0") (num "101.3") (num "0.6") (num "55.1")
         (num "2").

Definition failed (file : string) : item :=
  mkItem (VStr "Invalid file format") (VStr file) undefined
         undefined undefined undefined undefined undefined undefined
         undefined undefined undefined undefined undefined.

Definition ok_with (results : list item) : fetched :=
  FetchResolves (mkResponse true 200 EmptyString (BodyResults results)).

Definition server_error : fetched :=
  FetchResolves (mkResponse false 500 "Internal Server Error"
                            (BodyRejects (Exn "SyntaxError"))).

Definition offline : fetched := FetchRejects (Exn "TypeError: Failed to fetch").

(** A page with one pending file. *)
Definition pending : page := mkPage [a_csv] [] "none" EmptyString [] [].

End Demo.

(* ================================================================== *)
(** ** Responses whose items are not all well formed                   *)
(* ================================================================== *)

(** [Page.item] describes an element of [results] that is an object whose
    fields all have a string image.  JSON can give more: an element that
    is [null], and a field that is an object without a string image (an
    object with an own [toString] that is not a function, or an array
    holding one), for which a template literal throws a [TypeError].
    This module and the next two embed [appendResults] and both
    [doUpload]s over such responses. *)
Module Raw.
Import Js Page.
Local Open Scope js_scope.

Inductive raw_value : Type :=
| Shown (v : value)
| Unprintable.

(** [`${v}`]; [None] when the conversion throws. *)
Definition raw_to_string (v : raw_value) : option string :=
  match v with
  | Shown v => Some (to_string v)
  | Unprintable => None
  end.

(** ToBoolean: every object is truthy. *)
Definition raw_truthy (v : raw_value) : bool :=
  match v with
  | Shown v => truthy v
  | Unprintable => true
  end.

(** [v !== 'lit']. *)
Definition raw_strict_neq (v : raw_value) (lit : string) : bool :=
  match v with
  | Shown v => strict_neq v lit
  | Unprintable => true
  end.

Record raw_fields : Type := mkRaw {
  raw_error : raw_value;
  raw_file_name : raw_value;
  raw_chart_link : raw_value;
  raw_std_dev : raw_value;
  raw_large_changes : raw_value;
  raw_avg_daily_return : raw_value;
  raw_annual_volatility : raw_value;
  raw_sharpe_ratio : raw_value;
  raw_max_drawdown : raw_value;
  raw_positive_days : raw_value;
  raw_moving_average : raw_value;
  raw_bollinger_pctB : raw_value;
  raw_rsi : raw_value;
  raw_volume_spikes : raw_value
}.

(** An element of [results]: [null], or a value with properties (a
    number, a string, a boolean or an array has none of the properties
    read: all its fields are [undefined]). *)
Inductive raw_item : Type :=
| Null
| Obj (f : raw_fields).

Notation "x <-- m ; k" :=
  (match m with Some x => k | None => None end)
  (at level 61, m at next level, right associativity).

(** [const link = r.chart_link !== 'N/A' ? `<a ...>` : r.file_name]: a
    string, or the field itself, not yet converted. *)
Definition raw_link (r : raw_fields) : option raw_value :=
  if raw_strict_neq (raw_chart_link r) "N/A"
  then c <-- raw_to_string (raw_chart_link r) ;
       f <-- raw_to_string (raw_file_name r) ;
       Some (Shown (VStr ("<a href=" ++ dq ++ c ++ dq
                          ++ " target=" ++ dq ++ "_blank" ++ dq ++ ">"
                          ++ f ++ "</a>")))
  else Some (raw_file_name r).

(** The template literal assigned to [tr.innerHTML], its interpolations
    converted from left to right. *)
Definition raw_innerHTML (r : raw_fields) : option string :=
  l <-- raw_link r ;
  c0 <-- raw_to_string l ;
  c1 <-- raw_to_string (raw_std_dev r) ;
  c2 <-- raw_to_string (raw_large_changes r) ;
  c3 <-- raw_to_string (raw_avg_daily_return r) ;
  c4 <-- raw_to_string (raw_annual_volatility r) ;
  c5 <-- raw_to_string (raw_sharpe_ratio r) ;
  c6 <-- raw_to_string (raw_max_drawdown r) ;
  c7 <-- raw_to_string (raw_positive_days r) ;
  c8 <-- raw_to_string (raw_moving_average r) ;
  c9 <-- raw_to_string (raw_bollinger_pctB r) ;
  c10 <-- raw_to_string (raw_rsi r) ;
  c11 <-- raw_to_string (raw_volume_spikes r) ;
  Some ((nl ++ indent ++ "<td>" ++ c0 ++ "</td>"
        ++ nl ++ indent ++ "<td>" ++ c1 ++ "</td>"
        ++ nl ++ indent ++ "<td>" ++ c2 ++ "</td>"
        ++ nl ++ indent ++ "<td>" ++ c3 ++ "</td>"
        ++ nl ++ indent ++ "<td>" ++ c4 ++ "</td>"
        ++ nl ++ indent ++ "<td>" ++ c5 ++ "</td>"
        ++ nl ++ indent ++ "<td>" ++ c6 ++ "</td>"
        ++ nl ++ indent ++ "<td>" ++ c7 ++ "</td>"
        ++ nl ++ indent ++ "<td>" ++ c8 ++ "</td>"
        ++ nl ++ indent ++ "<td>" ++ c9 ++ "</td>"
        ++ nl ++ indent ++ "<td>" ++ c10 ++ "</td>"
        ++ nl ++ indent ++ "<td>" ++ c11 ++ "</td>"
        ++ nl ++ indent ++ "<td class=" ++ dq ++ "action-col" ++ dq
        ++ "><button class=" ++ dq ++ "remove-btn" ++ dq
        ++ ">❌</button></td>"
        ++ nl ++ "        ")%string).

(** The body of the [forEach] of [appendResults] for one element: reading
    a property of [null] throws, and so does a conversion that fails; the
    row is added after the template has been built. *)
Definition raw_row (r : raw_item) : M unit :=
  match r with
  | Null => throw TypeError
  | Obj f =>
      match raw_innerHTML f with
      | None => throw TypeError
      | Some tr => row_add tr
      end
  end.

(** [appendResults]: an exception leaves the loop, skipping
    [dataTable.draw(false)] and [updateResultsVisibility()]. *)
Definition raw_appendResults (results : list raw_item) : M unit :=
  for_of results raw_row ;;
  updateResultsVisibility.

Inductive raw_body : Type :=
| RBodyRejects (e : exn)
| RBodyNoResults
| RBodyResults (results : list raw_item).

Record raw_response : Type := mkRawResponse {
  raw_ok : bool;
  raw_status : nat;
  raw_text : string;
  raw_json : raw_body
}.

Inductive raw_fetched : Type :=
| RFetchRejects (e : exn)
| RFetchResolves (res : raw_response).

Definition raw_fetch (fd : list File) (net : raw_fetched) : M raw_response :=
  fun s =>
    let s' := mkPage (files s) (rows s) (display s) (input_value s)
                     (alerts s) (requests s ++ [fd]) in
    match net with
    | RFetchRejects e => (Throw e, s')
    | RFetchResolves res => (Return res, s')
    end.

Definition raw_json_results (res : raw_response) : M (list raw_item) :=
  match raw_json res with
  | RBodyRejects e => throw e
  | RBodyNoResults => throw TypeError
  | RBodyResults results => ret results
  end.

(** [results.filter(r => p(r))], where [p] reads a property of [r]. *)
Fixpoint raw_filter (p : raw_fields -> bool) (rs : list raw_item)
  : M (list raw_item) :=
  match rs with
  | [] => ret []
  | Null :: _ => throw TypeError
  | Obj f :: rest =>
      kept <- raw_filter p rest ;;
      ret (if p f then Obj f :: kept else kept)
  end.

(** A well-formed item and response, as elements of the larger types. *)
Definition lift_item (r : item) : raw_item :=
  Obj (mkRaw (Shown (error r)) (Shown (file_name r)) (Shown (chart_link r))
             (Shown (std_dev r)) (Shown (large_changes r))
             (Shown (avg_daily_return r)) (Shown (annual_volatility r))
             (Shown (sharpe_ratio r)) (Shown (max_drawdown r))
             (Shown (positive_days r)) (Shown (moving_average r))
             (Shown (bollinger_pctB r)) (Shown (rsi r))
             (Shown (volume_spikes r))).

Definition lift_body (b : body) : raw_body :=
  match b with
  | BodyRejects e => RBodyRejects e
  | BodyNoResults => RBodyNoResults
  | BodyResults results => RBodyResults (map lift_item results)
  end.

Definition lift_fetched (net : fetched) : raw_fetched :=
  match net with
  | FetchRejects e => RFetchRejects e
  | FetchResolves res =>
      RFetchResolves
        (mkRawResponse (ok res) (status res) (text res) (lift_body (json res)))
  end.

(** The field has a string image. *)
Definition shown (v : raw_value) : Prop :=
  match v with
  | Shown _ => True
  | Unprintable => False
  end.

(** The element is an object all of whose fields have a string image. *)
Definition printable_item (r : raw_item) : Prop :=
  match r with
  | Null => False
  | Obj f =>
      shown (raw_error f) /\ shown (raw_file_name f)
      /\ shown (raw_chart_link f) /\ shown (raw_std_dev f)
      /\ shown (raw_large_changes f) /\ shown (raw_avg_daily_return f)
      /\ shown (raw_annual_volatility f) /\ shown (raw_sharpe_ratio f)
      /\ shown (raw_max_drawdown f) /\ shown (raw_positive_days f)
      /\ shown (raw_moving_average f) /\ shown (raw_bollinger_pctB f)
      /\ shown (raw_rsi f) /\ shown (raw_volume_spikes f)
  end.

(** Every element of the response, if it has any, is printable. *)
Definition well_formed (net : raw_fetched) : Prop :=
  match net with
  | RFetchRejects _ => True
  | RFetchResolves res =>
      match raw_json res with
      | RBodyResults results => Forall printable_item results
      | _ => True
      end
  end.

(** The element on which the loop of [appendResults] throws. *)
Definition breaks_the_loop (r : raw_item) : Prop :=
  match r with
  | Null => True
  | Obj f => raw_innerHTML f = None
  end.

End Raw.

(** [doUpload] and the handlers of [script.js] over such responses. *)
Module RawScript.
Import Js Page Raw.
Local Open Scope js_scope.

Definition raw_is_valid (r : raw_fields) : bool :=
  negb (raw_truthy (raw_error r)).
Definition raw_is_error (r : raw_fields) : bool := raw_truthy (raw_error r).

(** [r.file_name.split(/[/\\]/).pop()]. *)
Definition failed_name (r : raw_item) : M string :=
  match r with
  | Null => throw TypeError
  | Obj f =>
      match raw_file_name f with
      | Shown (VStr s) => ret (pop (split is_sep s))
      | _ => throw TypeError
      end
  end.

Fixpoint map_failed_names (rs : list raw_item) : M (list string) :=
  match rs with
  | [] => ret []
  | r :: rest =>
      n <- failed_name r ;;
      ns <- map_failed_names rest ;;
      ret (n :: ns)
  end.

Definition doUpload (net : raw_fetched) : M unit :=
  fs <- get_files ;;
  if Nat.eqb (length fs) 0 then ret tt
  else
    try_catch
      (res <- raw_fetch fs net ;;
       when (negb (raw_ok res))
            (throw (Exn ("Error: Server error ("
                         ++ nat_to_string (raw_status res)
                         ++ "): " ++ raw_text res))) ;;
       results <- raw_json_results res ;;
       validResults <- raw_filter raw_is_valid results ;;
       errorResults <- raw_filter raw_is_error results ;;
       when (Nat.ltb 0 (length validResults))
            (raw_appendResults validResults) ;;
       when (Nat.ltb 0 (length errorResults))
            (names <- map_failed_names errorResults ;;
             let failedFiles := new_Set names in
             let failedFilesMsg := join nl failedFiles in
             when (Nat.ltb 0 (String.length failedFilesMsg))
                  (alert (Script.failed_alert failedFiles))) ;;
       set_files [])
      (fun err =>
         alert Script.upload_error_message ;;
         set_files []).

Section WithJSZip.
Variable loadAsync : string -> option archive.

Definition on_files (batch : list File) (net : raw_fetched) : M unit :=
  for_of batch (Script.processFile loadAsync) ;;
  set_input_value EmptyString ;;
  doUpload net.

Inductive event : Type :=
| Drop (dt_files : list File) (net : raw_fetched)
| Change (input_files : list File) (net : raw_fetched)
| RemoveClick (i : nat)
| ClearClick.

Definition handle (e : event) : M unit :=
  match e with
  | Drop batch net => on_files batch net
  | Change batch net => on_files batch net
  | RemoveClick i => on_remove_click i
  | ClearClick => on_clear_click
  end.

Definition step (e : event) (s : page) : page := snd (handle e s).

End WithJSZip.

Definition lift_event (e : Script.event) : event :=
  match e with
  | Script.Drop batch net => Drop batch (lift_fetched net)
  | Script.Change batch net => Change batch (lift_fetched net)
  | Script.RemoveClick i => RemoveClick i
  | Script.ClearClick => ClearClick
  end.

Definition well_formed_event (e : event) : Prop :=
  match e with
  | Drop _ net => well_formed net
  | Change _ net => well_formed net
  | _ => True
  end.

End RawScript.

(** [doUpload] and the handlers of [part_000] over such responses. *)
Module RawPart000.
Import Js Page Raw.
Local Open Scope js_scope.

Definition doUpload (net : raw_fetched) : M unit :=
  fs <- get_files ;;
  if Nat.eqb (length fs) 0 then ret tt
  else
    try_catch
      (res <- raw_fetch fs net ;;
       results <- raw_json_results res ;;
       raw_appendResults results ;;
       set_files [])
      (fun err => alert ("Upload error: " ++ exn_to_string err)).

Section WithJSZip.
Variable loadAsync : string -> option archive.

Definition on_files (batch : list File) (net : raw_fetched) : M unit :=
  for_of batch (Part000.processFile loadAsync) ;;
  set_input_value EmptyString ;;
  doUpload net.

Inductive event : Type :=
| Drop (dt_files : list File) (net : raw_fetched)
| Change (input_files : list File) (net : raw_fetched)
| RemoveClick (i : nat)
| ClearClick.

Definition handle (e : event) : M unit :=
  match e with
  | Drop batch net => on_files batch net
  | Change batch net => on_files batch net
  | RemoveClick i => on_remove_click i
  | ClearClick => on_clear_click
  end.

Definition step (e : event) (s : page) : page := snd (handle e s).

End WithJSZip.

Definition lift_event (e : Part000.event) : event :=
  match e with
  | Part000.Drop batch net => Drop batch (lift_fetched net)
  | Part000.Change batch net => Change batch (lift_fetched net)
  | Part000.RemoveClick i => RemoveClick i
  | Part000.ClearClick => ClearClick
  end.

Definition well_formed_event (e : event) : Prop :=
  match e with
  | Drop _ net => well_formed net
  | Change _ net => well_formed net
  | _ => True
  end.

End RawPart000.

(** What each revision accepts as a plain file, read off its
    [processFile]: [script.js] queues every item whose name does not end
    in [.zip] (its [else] branch), [part_000] those whose name ends in
    [.csv].  An item is unsupported for a revision when it is neither
    accepted by it nor a bundle. *)
Module Accepted.
Import Js Page Stated.





End Accepted.

(** Further sample inputs. *)
Module Samples.
Import Js Page.

(** [Demo.loadAsync] with one more buffer: an archive whose second entry
    cannot be read. *)
Definition loadAsync (buf : string) : option archive :=
  if String.eqb buf "PK:broken" then
    Some [("a.csv", Some "1"); ("b.csv", None); ("c.csv", Some "3")]
  else Demo.loadAsync buf.

Definition broken_zip : File :=
  mkFile "broken.zip" "application/zip" (Some "PK:broken").

Definition folder : File := mkFile "prices.zip" EmptyString None.

End Samples.

(* ================================================================== *)
(** ** Facts about the string primitives                               *)
(* ================================================================== *)

Module JsFacts.
Import Js.

Lemma split_not_nil (sep : ascii -> bool) (s : string) : split sep s <> [].
Proof.
  induction s as [|c rest IH]; simpl.
  - discriminate.
  - destruct (sep c); [discriminate|].
    destruct (split sep rest); discriminate.
Qed.










End JsFacts.

(* ================================================================== *)
(** ** The result table (both revisions)                               *)
(* ================================================================== *)

Module TableFacts.
Import Js Page Stated.
Local Open Scope js_scope.

Lemma append_assoc (a b c : string) :
  ((a ++ b) ++ c = a ++ (b ++ c))%string.
Proof. induction a as [|x a IH]; simpl; [reflexivity|now rewrite IH]. Qed.

Lemma page_eta (s : page) :
  mkPage (files s) (rows s) (display s) (input_value s) (alerts s)
         (requests s) = s.
Proof. destruct s; reflexivity. Qed.

(** The loop of [appendResults] adds one row per item, in order, and
    touches nothing else. *)
Lemma row_add_loop (results : list item) (s : page) :
  for_of results (fun r => row_add (innerHTML r)) s =
  (Return tt,
   mkPage (files s) (rows s ++ map innerHTML results) (display s)
          (input_value s) (alerts s) (requests s)).
Proof.
  revert s. induction results as [|r results IH]; intros s; simpl.
  - rewrite app_nil_r, page_eta. reflexivity.
  - unfold bind at 1. unfold row_add at 1. unfold bind, get_rows, set_rows.
    simpl. rewrite IH. simpl. rewrite <- app_assoc. reflexivity.
Qed.

Lemma appendResults_run (results : list item) (s : page) :
  appendResults results s =
  (Return tt,
   mkPage (files s) (rows s ++ map innerHTML results)
          (if Nat.ltb 0 (length (rows s ++ map innerHTML results))
           then "block" else "none")
          (input_value s) (alerts s) (requests s)).
Proof.
  unfold appendResults, bind. rewrite row_add_loop.
  reflexivity.
Qed.

Lemma shown_iff_rows (rs : list string) :
  (if Nat.ltb 0 (length rs) then "block" else "none") = "block"
  <-> 0 < length rs.
Proof.
  destruct (Nat.ltb 0 (length rs)) eqn:E.
  - apply Nat.ltb_lt in E. tauto.
  - apply Nat.ltb_ge in E. split; [discriminate|lia].
Qed.


End TableFacts.

(* ================================================================== *)
(** ** The HTML of a row                                               *)
(* ================================================================== *)

Module RowFacts.
Import Js Page Stated TableFacts.

Lemma link_is_first_cell (r : item) : link r = first_cell r.
Proof.
  unfold link, first_cell, anchor, strict_neq.
  destruct (chart_link r) as [s|shown b]; simpl.
  - destruct (String.eqb s "N/A"); reflexivity.
  - reflexivity.
Qed.

Lemma innerHTML_described (r : item) : innerHTML r = described_row r.
Proof.
  unfold innerHTML, described_row, metrics, action_cell, cell.
  rewrite link_is_first_cell. cbn [map concat_all].
  repeat rewrite append_assoc. reflexivity.
Qed.

Lemma occurs_in_refl (x : string) : occurs_in x x.
Proof.
  exists EmptyString, EmptyString. simpl.
  induction x as [|c x IH]; simpl; [reflexivity|now rewrite <- IH].
Qed.

Lemma occurs_in_app_l (x a b : string) :
  occurs_in x a -> occurs_in x (a ++ b).
Proof.
  intros [p [q ->]]. exists p, (q ++ b)%string.
  now rewrite !append_assoc.
Qed.

Lemma occurs_in_app_r (x a b : string) :
  occurs_in x b -> occurs_in x (a ++ b).
Proof.
  intros [p [q ->]]. exists (a ++ p)%string, q.
  now rewrite !append_assoc.
Qed.

Lemma occurs_in_trans (x y z : string) :
  occurs_in x y -> occurs_in y z -> occurs_in x z.
Proof.
  intros [p [q ->]] [p' [q' ->]].
  exists (p' ++ p)%string, (q ++ q')%string.
  now rewrite !append_assoc.
Qed.

Lemma occurs_in_cell (c : string) : occurs_in c (cell c).
Proof.
  unfold cell. do 3 apply occurs_in_app_r.
  apply occurs_in_app_l, occurs_in_refl.
Qed.

Lemma occurs_in_cells (c : string) (cs : list string) :
  In c cs -> occurs_in c (concat_all (map cell cs)).
Proof.
  induction cs as [|d cs IH]; cbn [map concat_all In]; [intros []|].
  intros [->|Hin].
  - apply occurs_in_app_l, occurs_in_cell.
  - apply occurs_in_app_r, IH, Hin.
Qed.

Lemma file_name_in_first_cell (r : item) :
  occurs_in (to_string (file_name r)) (first_cell r).
Proof.
  assert (Ha : forall href,
             occurs_in (to_string (file_name r))
                       (anchor href (to_string (file_name r)))).
  { intros href. unfold anchor. do 9 apply occurs_in_app_r.
    apply occurs_in_app_l, occurs_in_refl. }
  unfold first_cell. destruct (chart_link r) as [s|shown b].
  - destruct (String.eqb s "N/A"); [apply occurs_in_refl|apply Ha].
  - apply Ha.
Qed.

(** C9. The HTML assigned to a row is the response's fields spliced into
    the template unchanged: it is the described row (one cell per field,
    then the action cell); its first cell is the anchor whose [href] is
    the chart link as received, unless the chart link is the string
    ['N/A'], in which case it is the bare file name; and the file name,
    the first cell and every metric occur in it character for character,
    whatever characters they contain. *)
Theorem row_html_is_raw_interpolation :
  forall r : item,
    innerHTML r = described_row r
    /\ ((chart_link r <> VStr "N/A"
         /\ link r = anchor (to_string (chart_link r))
                            (to_string (file_name r)))
        \/ (chart_link r = VStr "N/A"
            /\ link r = to_string (file_name r)))
    /\ occurs_in (to_string (file_name r)) (innerHTML r)
    /\ (forall v, In v (metrics r) ->
                  occurs_in (to_string v) (innerHTML r))
    /\ occurs_in (link r) (innerHTML r).
Proof.
  intros r.
  assert (Hcells : forall c,
             In c (first_cell r :: map to_string (metrics r)) ->
             occurs_in c (innerHTML r)).
  { intros c Hin. rewrite innerHTML_described. unfold described_row.
    apply occurs_in_app_l, occurs_in_cells, Hin. }
  split; [apply innerHTML_described|].
  split.
  - rewrite link_is_first_cell. unfold first_cell.
    destruct (chart_link r) as [s|shown b]; simpl.
    + destruct (String.eqb s "N/A") eqn:E.
      * right. apply String.eqb_eq in E. subst s. auto.
      * left. apply String.eqb_neq in E. split; [congruence|reflexivity].
    + left. split; [discriminate|reflexivity].
  - split; [|split].
    + apply occurs_in_trans with (first_cell r).
      * apply file_name_in_first_cell.
      * apply Hcells. left. reflexivity.
    + intros v Hv. apply Hcells. right. apply in_map, Hv.
    + rewrite link_is_first_cell. apply Hcells. left. reflexivity.
Qed.

(** Markup in a field changes the structure of the row: a file name that
    closes its cell and opens another yields fourteen cell openings
    where a plain name yields thirteen. *)
Example markup_in_file_name_adds_a_cell :
  count_occurrences "<td" (innerHTML (Demo.good "aapl.csv" "N/A")) = 13
  /\ count_occurrences "<td"
       (innerHTML (Demo.good "x</td><td>injected" "N/A")) = 14.
Proof. split; reflexivity. Qed.

End RowFacts.

(* ================================================================== *)
(** ** Components a computation does not touch                         *)
(* ================================================================== *)

Module Frame.
Import Js Page Stated.
Local Open Scope js_scope.

Section Keeps.
Context {X : Type} (proj : page -> X).

Lemma keeps_ret {A} (a : A) : keeps proj (ret a).
Proof. intros s. reflexivity. Qed.

Lemma keeps_throw {A} (e : exn) : keeps proj (@throw A e).
Proof. intros s. reflexivity. Qed.

Lemma keeps_bind {A B} (m : M A) (k : A -> M B) :
  keeps proj m -> (forall a, keeps proj (k a)) -> keeps proj (bind m k).
Proof.
  intros Hm Hk s. unfold bind. specialize (Hm s).
  destruct (m s) as [[a|e] s1]; simpl in *.
  - rewrite Hk. exact Hm.
  - exact Hm.
Qed.

Lemma keeps_try_catch {A} (m : M A) (h : exn -> M A) :
  keeps proj m -> (forall e, keeps proj (h e)) ->
  keeps proj (try_catch m h).
Proof.
  intros Hm Hh s. unfold try_catch. specialize (Hm s).
  destruct (m s) as [[a|e] s1]; simpl in *.
  - exact Hm.
  - rewrite Hh. exact Hm.
Qed.

Lemma keeps_when (c : bool) (m : M unit) :
  keeps proj m -> keeps proj (when c m).
Proof. destruct c; [auto|intros _; apply keeps_ret]. Qed.

Lemma keeps_for_of {A} (xs : list A) (f : A -> M unit) :
  (forall x, keeps proj (f x)) -> keeps proj (for_of xs f).
Proof.
  intros Hf. induction xs as [|x xs IH]; simpl.
  - apply keeps_ret.
  - apply keeps_bind; [apply Hf|intros _; exact IH].
Qed.

Lemma keeps_arrayBuffer (f : File) : keeps proj (arrayBuffer f).
Proof.
  unfold arrayBuffer. destruct (bytes f); [apply keeps_ret|apply keeps_throw].
Qed.

Lemma keeps_json_results (res : response) : keeps proj (json_results res).
Proof.
  unfold json_results.
  destruct (json res); first [apply keeps_ret|apply keeps_throw].
Qed.

End Keeps.

Lemma nonempty_length {A} (l : list A) :
  l <> [] -> Nat.eqb (length l) 0 = false.
Proof. destruct l; [contradiction|reflexivity]. Qed.

(** [for ... of] over a concatenation. *)
Lemma for_of_app {A} (xs ys : list A) (f : A -> M unit) (s : page) :
  for_of (xs ++ ys) f s =
  match for_of xs f s with
  | (Return _, s1) => for_of ys f s1
  | (Throw e, s1) => (Throw e, s1)
  end.
Proof.
  revert s. induction xs as [|x xs IH]; intros s; simpl.
  - reflexivity.
  - unfold bind. destruct (f x s) as [[[]|e] s1]; [apply IH|reflexivity].
Qed.

End Frame.

(* ================================================================== *)
(** ** [doUpload] of [script.js]                                       *)
(* ================================================================== *)

Module ScriptUpload.
Import Js Page Stated JsFacts TableFacts Frame.
Import Script.
Local Open Scope js_scope.

Lemma clears_bind {A B} (m : M A) (k : A -> M B) :
  (forall a, clears (k a)) -> clears (bind m k).
Proof.
  intros Hk s. unfold bind. destruct (m s) as [[a|e] s']; [apply Hk|exact I].
Qed.

Lemma clears_set_files_nil : clears (set_files []).
Proof. intros s. reflexivity. Qed.

(** Whatever the network does, [doUpload] returns normally and leaves
    [files] empty. *)
Lemma doUpload_clears_queue (net : fetched) (s : page) :
  exists s', doUpload net s = (Return tt, s') /\ files s' = [].
Proof.
  unfold doUpload. unfold bind at 1. unfold get_files.
  destruct (files s) as [|f fs] eqn:Hfs; simpl.
  - exists s. split; [reflexivity|exact Hfs].
  - unfold try_catch.
    match goal with |- context [match ?body s with _ => _ end] =>
      assert (Hc : clears body) end.
    { repeat (apply clears_bind; intros). apply clears_set_files_nil. }
    specialize (Hc s).
    match goal with |- context [match ?body s with _ => _ end] =>
      destruct (body s) as [[[]|e] s1] end.
    + exists s1. split; [reflexivity|exact Hc].
    + eexists. split; reflexivity.
Qed.

Lemma map_failed_names_run (errs : list item) (names : list string)
      (s : page) :
  map file_name errs = map VStr names ->
  map_failed_names errs s = (Return (map basename names), s).
Proof.
  revert names. induction errs as [|r errs IH]; intros [|n names] H;
    simpl in H; try discriminate.
  - reflexivity.
  - injection H as Hr Hrest. simpl. unfold bind at 1. unfold failed_name.
    rewrite Hr. unfold ret at 1. unfold bind at 1.
    rewrite (IH names Hrest). reflexivity.
Qed.

(** The whole success path, when the failed names are strings. *)
Lemma doUpload_success (s : page) (res : response) (results : list item)
      (names : list string) :
  files s <> [] ->
  ok res = true ->
  json res = BodyResults results ->
  map file_name (filter is_error results) = map VStr names ->
  let validResults := filter is_valid results in
  let failedFiles := new_Set (map basename names) in
  doUpload (FetchResolves res) s =
  (Return tt,
   mkPage []
     (rows s ++ map innerHTML validResults)
     (if Nat.ltb 0 (length validResults)
      then (if Nat.ltb 0 (length (rows s ++ map innerHTML validResults))
            then "block" else "none")
      else display s)
     (input_value s)
     (alerts s ++
        (if Nat.ltb 0 (length names)
            && Nat.ltb 0 (String.length (join nl failedFiles))
         then [failed_alert failedFiles] else []))
     (requests s ++ [files s])).
Proof.
  intros Hfs Hok Hjson Hnames validResults failedFiles.
  unfold doUpload. unfold bind at 1. unfold get_files.
  destruct (files s) as [|f fs] eqn:Efs; [contradiction|].
  rewrite <- Efs. clear Hfs. simpl Nat.eqb.
  assert (Hlen : Nat.eqb (length (files s)) 0 = false)
    by (rewrite Efs; reflexivity).
  rewrite Hlen. unfold try_catch, bind, fetch, json_results.
  rewrite Hok, Hjson. simpl.
  fold validResults.
  assert (Herrs : length (filter is_error results) = length names).
  { rewrite <- (length_map file_name), Hnames. apply length_map. }
  rewrite Herrs.
  destruct (Nat.ltb 0 (length validResults)) eqn:Ev; simpl.
  - rewrite appendResults_run. simpl.
    destruct (Nat.ltb 0 (length names)) eqn:En; simpl.
    + unfold bind. rewrite (map_failed_names_run _ names _ Hnames).
      fold failedFiles.
      destruct (Nat.ltb 0 (String.length (join nl failedFiles)));
        simpl; rewrite ?app_nil_r; reflexivity.
    + rewrite app_nil_r. reflexivity.
  - assert (Hv : validResults = []).
    { apply Nat.ltb_ge in Ev. destruct validResults; [reflexivity|].
      simpl in Ev. lia. }
    rewrite Hv. simpl. rewrite app_nil_r.
    destruct (Nat.ltb 0 (length names)) eqn:En; simpl.
    + unfold bind. rewrite (map_failed_names_run _ names _ Hnames).
      fold failedFiles.
      destruct (Nat.ltb 0 (String.length (join nl failedFiles)));
        simpl; rewrite ?app_nil_r; reflexivity.
    + rewrite app_nil_r. reflexivity.
Qed.






Lemma map_failed_names_keeps {X} (proj : page -> X) (errs : list item) :
  keeps proj (map_failed_names errs).
Proof.
  induction errs as [|r errs IH]; simpl; [apply keeps_ret|].
  apply keeps_bind.
  - unfold failed_name.
    destruct (file_name r); [apply keeps_ret|apply keeps_throw].
  - intros n. apply keeps_bind; [exact IH|intros; apply keeps_ret].
Qed.

(** What follows [appendResults] in the [try], and the [catch], leave the
    table and the display alone. *)
Lemma after_append_keeps {X} (proj : page -> X) (results : list item) :
  (forall msg, keeps proj (alert msg)) ->
  (forall fs, keeps proj (set_files fs)) ->
  keeps proj
    (try_catch
       (when (Nat.ltb 0 (length (filter is_error results)))
             (names <- map_failed_names (filter is_error results) ;;
              when (Nat.ltb 0 (String.length (join nl (new_Set names))))
                   (alert (failed_alert (new_Set names)))) ;;
        set_files [])
       (fun _ => alert upload_error_message ;; set_files [])).
Proof.
  intros Ha Hf. apply keeps_try_catch.
  - apply keeps_bind; [|intros _; apply Hf].
    apply keeps_when, keeps_bind; [apply map_failed_names_keeps|].
    intros names. apply keeps_when, Ha.
  - intros _. apply keeps_bind; [apply Ha|intros _; apply Hf].
Qed.

(** The table after [doUpload]: either untouched, or extended with the
    rows of the items without an error indicator, with the display
    recomputed. *)
Lemma doUpload_table (net : fetched) (s : page) :
  let s' := snd (doUpload net s) in
  (rows s' = rows s /\ display s' = display s)
  \/ (exists res results,
         net = FetchResolves res /\ json res = BodyResults results
         /\ rows s' = rows s ++ map innerHTML (filter is_valid results)
         /\ display s' = if Nat.ltb 0 (length (rows s'))
                         then "block" else "none").
Proof.
  cbv zeta. remember (snd (doUpload net s)) as s' eqn:E.
  unfold doUpload in E. unfold bind at 1 in E. unfold get_files in E.
  destruct (Nat.eqb (length (files s)) 0);
    [left; subst s'; split; reflexivity|].
  unfold try_catch in E. unfold bind at 1 in E.
  destruct net as [e|res]; simpl in E; [left; subst s'; split; reflexivity|].
  unfold bind at 1 in E.
  destruct (ok res); simpl in E; [|left; subst s'; split; reflexivity].
  unfold bind at 1 in E. unfold json_results in E.
  destruct (json res) as [e| |results] eqn:Ej; simpl in E;
    try (left; subst s'; split; reflexivity).
  unfold bind at 1 in E.
  assert (Hrows := fun st =>
            after_append_keeps rows results
              (fun msg s0 => eq_refl) (fun fs s0 => eq_refl) st).
  assert (Hdisp := fun st =>
            after_append_keeps display results
              (fun msg s0 => eq_refl) (fun fs s0 => eq_refl) st).
  unfold try_catch in Hrows, Hdisp.
  destruct (Nat.ltb 0 (length (filter is_valid results))) eqn:Ev;
    cbn [when] in E.
  - rewrite appendResults_run in E. cbn [rows files display] in E.
    right. exists res, results.
    split; [reflexivity|]. split; [exact Ej|].
    assert (Hr : rows s' = rows s ++ map innerHTML (filter is_valid results)).
    { subst s'. exact (Hrows _). }
    split; [exact Hr|]. rewrite Hr. subst s'. exact (Hdisp _).
  - left. subst s'. split; [exact (Hrows _)|exact (Hdisp _)].
Qed.

End ScriptUpload.

(* ================================================================== *)
(** ** [doUpload] of [part_000]                                        *)
(* ================================================================== *)

Module LegacyUpload.
Import Js Page Stated TableFacts Frame.
Import Part000.
Local Open Scope js_scope.

Lemma legacy_doUpload_empty (net : fetched) (s : page) :
  files s = [] -> doUpload net s = (Return tt, s).
Proof.
  intros H. unfold doUpload, bind, get_files. rewrite H. reflexivity.
Qed.

(** The failure path: the request was made, the alert is raised, and
    [files] is as before. *)
Lemma legacy_doUpload_throws (net : fetched) (e : exn) (s : page) :
  files s <> [] ->
  legacy_upload_throws net = Some e ->
  doUpload net s =
  (Return tt,
   mkPage (files s) (rows s) (display s) (input_value s)
          (alerts s ++ [("Upload error: " ++ exn_to_string e)%string])
          (requests s ++ [files s])).
Proof.
  intros Hfs Hnet. unfold doUpload. unfold bind at 1. unfold get_files.
  rewrite (nonempty_length _ Hfs).
  unfold try_catch, bind, fetch, json_results.
  destruct net as [e'|res]; simpl in Hnet.
  - injection Hnet as ->. reflexivity.
  - destruct (json res) as [e'| |results]; simpl.
    + injection Hnet as ->. reflexivity.
    + injection Hnet as <-. reflexivity.
    + discriminate.
Qed.

(** The path on which the body parses: one row per item of [results],
    whatever the item, and the queue is emptied. *)
Lemma legacy_doUpload_parsed (res : response) (results : list item) (s : page) :
  files s <> [] ->
  json res = BodyResults results ->
  doUpload (FetchResolves res) s =
  (Return tt,
   mkPage [] (rows s ++ map innerHTML results)
          (if Nat.ltb 0 (length (rows s ++ map innerHTML results))
           then "block" else "none")
          (input_value s) (alerts s) (requests s ++ [files s])).
Proof.
  intros Hfs Hjson. unfold doUpload. unfold bind at 1. unfold get_files.
  rewrite (nonempty_length _ Hfs).
  unfold try_catch, bind, fetch, json_results. rewrite Hjson. simpl.
  rewrite appendResults_run. reflexivity.
Qed.

(** A request is made exactly when the queue is not empty, and carries
    the whole queue. *)
Lemma legacy_doUpload_requests (net : fetched) (s : page) :
  requests (snd (doUpload net s)) =
  requests s ++ (if Nat.eqb (length (files s)) 0 then [] else [files s]).
Proof.
  destruct (files s) as [|f fs] eqn:Efs.
  - rewrite legacy_doUpload_empty by exact Efs. simpl. now rewrite app_nil_r.
  - assert (Hfs : files s <> []) by (rewrite Efs; discriminate).
    rewrite <- Efs. rewrite (nonempty_length _ Hfs).
    destruct (legacy_upload_throws net) as [e|] eqn:E.
    + rewrite (legacy_doUpload_throws net e s Hfs E). reflexivity.
    + destruct net as [e|res]; [discriminate|]. simpl in E.
      destruct (json res) as [e| |results] eqn:Ej; try discriminate.
      rewrite (legacy_doUpload_parsed res results s Hfs Ej). reflexivity.
Qed.

(** C1, on [part_000]: when the upload throws inside its [try] (the
    request fails, the body is not JSON, or it has no [results]), the
    [catch] raises its alert and [files] is left as it was; the next
    upload sends the same files again. *)
Theorem legacy_failed_upload_keeps_queue :
  forall (net : fetched) (e : exn) (s : page),
    files s <> [] ->
    legacy_upload_throws net = Some e ->
    let s1 := snd (doUpload net s) in
    files s1 = files s
    /\ alerts s1 = alerts s ++ [("Upload error: " ++ exn_to_string e)%string]
    /\ (forall net2,
           requests (snd (doUpload net2 s1)) =
           requests s ++ [files s] ++ [files s]).
Proof.
  intros net e s Hfs Hnet. cbv zeta.
  rewrite (legacy_doUpload_throws net e s Hfs Hnet). simpl.
  repeat split. intros net2. rewrite legacy_doUpload_requests. simpl.
  rewrite (nonempty_length _ Hfs). rewrite <- app_assoc. reflexivity.
Qed.

Lemma legacy_failed_upload_keeps_queue_witness :
  let s1 := snd (doUpload Demo.offline Demo.pending) in
  files s1 = [Demo.a_csv]
  /\ alerts s1 = ["Upload error: TypeError: Failed to fetch"]
  /\ (forall net2,
         requests (snd (doUpload net2 s1)) = [[Demo.a_csv]; [Demo.a_csv]]).
Proof.
  apply (legacy_failed_upload_keeps_queue
           Demo.offline (Exn "TypeError: Failed to fetch") Demo.pending).
  - discriminate.
  - reflexivity.
Defined.

(** C2, on [part_000]: when the body parses, every item of [results]
    gets a row, the items that carry an error indicator included. *)
Theorem legacy_upload_rows_for_every_item :
  forall (res : response) (results : list item) (s : page),
    files s <> [] ->
    json res = BodyResults results ->
    let s' := snd (doUpload (FetchResolves res) s) in
    rows s' = rows s ++ map innerHTML results
    /\ (forall r, In r results -> truthy (error r) = true ->
                  In (innerHTML r) (rows s')).
Proof.
  intros res results s Hfs Hjson. cbv zeta.
  rewrite (legacy_doUpload_parsed res results s Hfs Hjson). simpl.
  split; [reflexivity|].
  intros r Hr _. apply in_or_app. right. apply in_map, Hr.
Qed.

Lemma legacy_upload_rows_for_every_item_witness :
  let s' := snd (doUpload (Demo.ok_with [Demo.failed "x.csv"]) Demo.pending) in
  rows s' = rows Demo.pending ++ map innerHTML [Demo.failed "x.csv"]
  /\ (forall r, In r [Demo.failed "x.csv"] -> truthy (error r) = true ->
                In (innerHTML r) (rows s')).
Proof.
  apply (legacy_upload_rows_for_every_item
           (mkResponse true 200 EmptyString (BodyResults [Demo.failed "x.csv"]))
           [Demo.failed "x.csv"] Demo.pending).
  - discriminate.
  - reflexivity.
Defined.

End LegacyUpload.

(* ================================================================== *)
(** ** [processFile] and the intake handlers                           *)
(* ================================================================== *)

Module ScriptIntake.
Import Js Page Stated TableFacts Frame.
Import Script.
Local Open Scope js_scope.

Section Untouched.
Context {X : Type} (proj : page -> X).
Hypothesis keeps_push : forall f, keeps proj (push f).
Hypothesis keeps_alert : forall msg, keeps proj (alert msg).
Variable loadAsync : string -> option archive.

Lemma extract_keeps (entries : archive) (v : bool) :
  keeps proj (extract entries v).
Proof.
  revert v. induction entries as [|[n settled] rest IH]; intros v; simpl.
  - apply keeps_ret.
  - apply keeps_bind.
    + destruct settled; [apply keeps_ret|apply keeps_throw].
    + intros blob. apply keeps_bind; [apply keeps_push|intros _; apply IH].
Qed.

Lemma processFile_keeps (file : File) :
  keeps proj (processFile loadAsync file).
Proof.
  unfold processFile. destruct (endsWith (name file) ".zip").
  - apply keeps_bind; [apply keeps_arrayBuffer|intros buf].
    apply keeps_bind.
    + unfold JSZip_loadAsync.
      destruct (loadAsync buf); [apply keeps_ret|apply keeps_throw].
    + intros zip. apply keeps_bind; [apply extract_keeps|intros v].
      apply keeps_when, keeps_alert.
  - apply keeps_push.
Qed.

Lemma intake_keeps (batch : list File) :
  keeps proj (for_of batch (processFile loadAsync)).
Proof. apply keeps_for_of, processFile_keeps. Qed.

End Untouched.

Section Intake.
Variable loadAsync : string -> option archive.

(** A plain item is queued as it is. *)
Lemma processFile_plain (file : File) (s : page) :
  is_zip file = false ->
  processFile loadAsync file s =
  (Return tt,
   mkPage (files s ++ [file]) (rows s) (display s) (input_value s)
          (alerts s) (requests s)).
Proof. intros H. unfold processFile. unfold is_zip in H. now rewrite H. Qed.

(** Without a bundle in the batch, every item is queued, in order, and
    nothing is reported. *)
Lemma intake_plain (batch : list File) (s : page) :
  Forall (fun f => is_zip f = false) batch ->
  for_of batch (processFile loadAsync) s =
  (Return tt,
   mkPage (files s ++ batch) (rows s) (display s) (input_value s)
          (alerts s) (requests s)).
Proof.
  intros H. revert s. induction H as [|f batch Hf _ IH]; intros s; simpl.
  - rewrite app_nil_r, page_eta. reflexivity.
  - unfold bind. rewrite (processFile_plain f s Hf). rewrite IH. simpl.
    rewrite <- app_assoc. reflexivity.
Qed.

(** Whatever happens to the entries, those read before a failure are
    queued as [text/csv] files. *)
Lemma extract_adds (entries : archive) (v : bool) (s : page) :
  exists added,
    files (snd (extract entries v s)) = files s ++ added
    /\ Forall (fun f => type f = "text/csv") added.
Proof.
  revert v s. induction entries as [|[n [blob|]] rest IH]; intros v s; simpl.
  - exists []. now rewrite app_nil_r.
  - unfold bind at 1. simpl. unfold bind at 1. simpl.
    destruct (IH true (snd (push (mkFile n "text/csv" (Some blob)) s)))
      as [added [Hadd Hty]].
    exists (mkFile n "text/csv" (Some blob) :: added).
    split; [|constructor; [reflexivity|exact Hty]].
    simpl in Hadd. rewrite Hadd, <- app_assoc. reflexivity.
  - exists []. now rewrite app_nil_r.
Qed.

(** When every entry can be read, every entry is queued. *)
Lemma extract_settled (entries : archive) (v : bool) (s : page) :
  Forall (fun e => snd e <> None) entries ->
  extract entries v s =
  (Return (v || negb (Nat.eqb (length entries) 0)),
   mkPage (files s ++ map entry_file entries) (rows s) (display s)
          (input_value s) (alerts s) (requests s)).
Proof.
  intros H. revert v s.
  induction H as [|[n settled] rest Hn _ IH]; intros v s; simpl.
  - rewrite orb_false_r, app_nil_r, page_eta. reflexivity.
  - destruct settled as [blob|]; [|now contradiction Hn].
    unfold bind at 1. simpl. unfold bind at 1. simpl.
    rewrite IH. simpl. rewrite orb_true_r, <- app_assoc. reflexivity.
Qed.

(** A bundle that decodes to no entry at all is reported, once. *)
Lemma processFile_empty_bundle (file : File) (buf : string) (s : page) :
  is_zip file = true ->
  bytes file = Some buf ->
  loadAsync buf = Some [] ->
  processFile loadAsync file s =
  (Return tt,
   mkPage (files s) (rows s) (display s) (input_value s)
          (alerts s ++ [("ZIP file " ++ dq ++ name file ++ dq
                         ++ " contains no files.")%string])
          (requests s)).
Proof.
  intros Hz Hb Hl. unfold processFile. unfold is_zip in Hz. rewrite Hz.
  unfold bind, arrayBuffer, JSZip_loadAsync. rewrite Hb. simpl.
  rewrite Hl. reflexivity.
Qed.

(** A bundle that cannot be read or decoded throws before anything is
    queued. *)
Lemma processFile_undecodable (file : File) (s : page) :
  is_zip file = true ->
  (bytes file = None
   \/ exists buf, bytes file = Some buf /\ loadAsync buf = None) ->
  exists e, processFile loadAsync file s = (Throw e, s).
Proof.
  intros Hz H. unfold processFile. unfold is_zip in Hz. rewrite Hz.
  unfold bind, arrayBuffer, JSZip_loadAsync.
  destruct H as [Hb|[buf [Hb Hl]]]; rewrite Hb; simpl.
  - eexists. reflexivity.
  - rewrite Hl. eexists. reflexivity.
Qed.

(** Every request carries the whole queue, and is made only when the
    queue is not empty. *)
Lemma doUpload_requests (net : fetched) (s : page) :
  requests (snd (doUpload net s)) =
  requests s ++ (if Nat.eqb (length (files s)) 0 then [] else [files s]).
Proof.
  unfold doUpload. unfold bind at 1. unfold get_files.
  destruct (Nat.eqb (length (files s)) 0); simpl.
  - now rewrite app_nil_r.
  - unfold try_catch. unfold bind at 1.
    assert (Hh : forall e : exn,
               keeps requests (alert upload_error_message ;; set_files [])).
    { intros _ s0. reflexivity. }
    destruct net as [e|res]; simpl.
    + reflexivity.
    + match goal with |- context [?rest ?st] =>
        match type of st with page =>
          match rest with
          | bind _ _ =>
              assert (Hk : keeps requests rest);
              [|generalize (Hk st); destruct (rest st) as [[[]|e] s1];
                simpl; intros ->; reflexivity]
          end
        end
      end.
      apply keeps_bind; [apply keeps_when; intros s0; reflexivity|intros _].
      apply keeps_bind; [apply keeps_json_results|intros results].
      apply keeps_bind.
      { apply keeps_when. intros s0. rewrite appendResults_run. reflexivity. }
      intros _. apply keeps_bind; [|intros _ s0; reflexivity].
      apply keeps_when. apply keeps_bind.
      { generalize (filter is_error results). intros errs.
        induction errs as [|r errs IH]; simpl; [apply keeps_ret|].
        apply keeps_bind.
        - unfold failed_name.
          destruct (file_name r); [apply keeps_ret|apply keeps_throw].
        - intros n. apply keeps_bind; [exact IH|intros; apply keeps_ret]. }
      intros names. apply keeps_when. intros s0. reflexivity.
Qed.

End Intake.

End ScriptIntake.

Module LegacyIntake.
Import Js Page Stated TableFacts Frame.
Import Part000.
Local Open Scope js_scope.

Section Untouched.
Context {X : Type} (proj : page -> X).
Hypothesis keeps_push : forall f, keeps proj (push f).
Hypothesis keeps_alert : forall msg, keeps proj (alert msg).
Variable loadAsync : string -> option archive.

Lemma legacy_extract_keeps (entries : archive) : keeps proj (extract entries).
Proof.
  induction entries as [|[n settled] rest IH]; simpl.
  - apply keeps_ret.
  - apply keeps_bind; [|intros _; exact IH].
    apply keeps_when, keeps_bind.
    + destruct settled; [apply keeps_ret|apply keeps_throw].
    + intros blob. apply keeps_push.
Qed.

Lemma legacy_processFile_keeps (file : File) :
  keeps proj (processFile loadAsync file).
Proof.
  unfold processFile. destruct (endsWith (name file) ".zip").
  - apply keeps_bind; [apply keeps_arrayBuffer|intros buf].
    apply keeps_bind; [|intros zip; apply legacy_extract_keeps].
    unfold JSZip_loadAsync.
    destruct (loadAsync buf); [apply keeps_ret|apply keeps_throw].
  - destruct (endsWith (name file) ".csv");
      [apply keeps_push|apply keeps_alert].
Qed.

Lemma legacy_intake_keeps (batch : list File) :
  keeps proj (for_of batch (processFile loadAsync)).
Proof. apply keeps_for_of, legacy_processFile_keeps. Qed.

End Untouched.

Section Intake.
Variable loadAsync : string -> option archive.

(** Without a bundle in the batch: the [.csv] items are queued in
    order, every other item raises its own notice, and the loop runs to
    the end. *)
Lemma legacy_intake_plain (batch : list File) (s : page) :
  Forall (fun f => is_zip f = false) batch ->
  for_of batch (processFile loadAsync) s =
  (Return tt,
   mkPage (files s ++ filter is_csv batch) (rows s) (display s)
          (input_value s)
          (alerts s ++ map unsupported_notice
                         (filter (fun f => negb (is_csv f)) batch))
          (requests s)).
Proof.
  intros H. revert s. induction H as [|f batch Hf _ IH]; intros s.
  - simpl. rewrite !app_nil_r, page_eta. reflexivity.
  - cbn [for_of filter]. unfold bind. unfold processFile at 1.
    unfold is_zip in Hf. rewrite Hf.
    change (endsWith (name f) ".csv") with (is_csv f).
    destruct (is_csv f); simpl; rewrite IH; simpl;
      rewrite <- app_assoc; reflexivity.
Qed.

Lemma legacy_extract_adds (entries : archive) (s : page) :
  exists added,
    files (snd (extract entries s)) = files s ++ added
    /\ Forall (fun f => type f = "text/csv") added.
Proof.
  revert s. induction entries as [|[n settled] rest IH]; intros s;
    cbn [extract].
  - exists []. now rewrite app_nil_r.
  - unfold bind at 1.
    destruct (endsWith n ".csv"); cbn [when].
    + destruct settled as [blob|]; cbn [async_blob].
      * unfold bind at 1. cbn [ret]. cbn beta iota.
        destruct (IH (snd (push (mkFile n "text/csv" (Some blob)) s)))
          as [added [Hadd Hty]].
        exists (mkFile n "text/csv" (Some blob) :: added).
        split; [|constructor; [reflexivity|exact Hty]].
        simpl. simpl in Hadd. rewrite Hadd, <- app_assoc. reflexivity.
      * exists []. now rewrite app_nil_r.
    + apply IH.
Qed.

(** When every [.csv] entry can be read, exactly the [.csv] entries
    are queued; no notice is raised for the others. *)
Lemma legacy_extract_settled (entries : archive) (s : page) :
  Forall (fun e => is_csv_entry e = true -> snd e <> None) entries ->
  extract entries s =
  (Return tt,
   mkPage (files s ++ map entry_file (filter is_csv_entry entries))
          (rows s) (display s) (input_value s) (alerts s) (requests s)).
Proof.
  intros H. revert s.
  induction H as [|[n settled] rest Hn _ IH]; intros s.
  - simpl. rewrite app_nil_r, page_eta. reflexivity.
  - cbn [extract filter]. unfold bind at 1. unfold is_csv_entry at 1.
    unfold is_csv_entry in Hn. simpl fst in *. simpl snd in Hn.
    destruct (endsWith n ".csv"); simpl.
    + destruct settled as [blob|]; [|now contradiction Hn].
      unfold bind at 1. simpl. rewrite IH. simpl.
      rewrite <- app_assoc. reflexivity.
    + apply IH.
Qed.

Lemma legacy_processFile_decoded (file : File) (buf : string) (zip : archive)
      (s : page) :
  is_zip file = true ->
  bytes file = Some buf ->
  loadAsync buf = Some zip ->
  processFile loadAsync file s = extract zip s.
Proof.
  intros Hz Hb Hl. unfold processFile. unfold is_zip in Hz. rewrite Hz.
  unfold bind, arrayBuffer, JSZip_loadAsync. rewrite Hb. simpl.
  rewrite Hl. reflexivity.
Qed.

End Intake.

End LegacyIntake.

(* ================================================================== *)
(** ** Bundles, unsupported items and decode failures                  *)
(* ================================================================== *)

Module Intake.
Import Js Page Stated TableFacts Frame.
Local Open Scope js_scope.

Lemma on_files_after_intake
      (processFile : File -> M unit) (doUpload : fetched -> M unit)
      (batch : list File) (net : fetched) (s s1 : page) :
  for_of batch processFile s = (Return tt, s1) ->
  (for_of batch processFile ;; set_input_value EmptyString ;; doUpload net) s
  = doUpload net
      (mkPage (files s1) (rows s1) (display s1) EmptyString (alerts s1)
              (requests s1)).
Proof. intros H. unfold bind. rewrite H. reflexivity. Qed.

(** C7, on [part_000]: a bundle that decodes but holds no [.csv] entry
    leaves the page exactly as it was: nothing is queued and no notice
    is raised, so the drop of such a bundle alone is a silent no-op. *)
Theorem legacy_bundle_without_csv_is_silent :
  forall (loadAsync : string -> option archive) (bundle : File)
         (buf : string) (zip : archive) (net : fetched) (s : page),
    is_zip bundle = true ->
    bytes bundle = Some buf ->
    loadAsync buf = Some zip ->
    Forall (fun e => is_csv_entry e = false) zip ->
    files s = [] ->
    Part000.processFile loadAsync bundle s = (Return tt, s)
    /\ let s' := Part000.step loadAsync (Part000.Drop [bundle] net) s in
       files s' = [] /\ alerts s' = alerts s
       /\ requests s' = requests s /\ rows s' = rows s.
Proof.
  intros loadAsync bundle buf zip net s Hz Hb Hl Hzip Hfs.
  assert (Hp : Part000.processFile loadAsync bundle s = (Return tt, s)).
  { rewrite (LegacyIntake.legacy_processFile_decoded loadAsync bundle buf zip s Hz Hb Hl).
    rewrite LegacyIntake.legacy_extract_settled.
    - replace (filter is_csv_entry zip) with (@nil (string * option string)).
      + simpl. rewrite app_nil_r, page_eta. reflexivity.
      + symmetry. clear -Hzip. induction Hzip as [|e zip He _ IH]; simpl;
          [reflexivity|now rewrite He].
    - eapply Forall_impl; [|exact Hzip]. intros e He Hc. congruence. }
  split; [exact Hp|].
  unfold Part000.step, Part000.handle, Part000.on_files.
  rewrite (on_files_after_intake _ _ [bundle] net s s).
  - rewrite LegacyUpload.legacy_doUpload_empty by exact Hfs. simpl.
    rewrite Hfs. auto.
  - simpl. unfold bind. rewrite Hp. reflexivity.
Qed.

Lemma legacy_bundle_without_csv_is_silent_witness :
  Part000.processFile Demo.loadAsync Demo.text_zip initial
  = (Return tt, initial)
  /\ let s' := Part000.step Demo.loadAsync
                 (Part000.Drop [Demo.text_zip] Demo.offline) initial in
     files s' = [] /\ alerts s' = alerts initial
     /\ requests s' = requests initial /\ rows s' = rows initial.
Proof.
  apply (legacy_bundle_without_csv_is_silent
           Demo.loadAsync Demo.text_zip "PK:text"
           [("readme.txt", Some "notes")] Demo.offline initial).
  - reflexivity.
  - reflexivity.
  - reflexivity.
  - repeat constructor.
  - reflexivity.
Defined.

(** C8, as stated, fails: the files queued from a bundle of type
    [application/zip] are typed [text/csv], not [application/zip]. *)
Lemma entries_do_not_carry_the_bundle_type :
  let s' := snd (Script.processFile Demo.loadAsync Demo.mixed_zip initial) in
  type Demo.mixed_zip = "application/zip"
  /\ map type (files s') = ["text/csv"; "text/csv"]
  /\ ~ Forall (fun f => type f = type Demo.mixed_zip) (files s').
Proof.
  cbv zeta. split; [reflexivity|]. split; [reflexivity|].
  intros H. vm_compute in H. inversion H as [|? ? Hty _]. discriminate Hty.
Qed.

(** C8 (amended). Every file queued from a bundle carries the constant
    content type [text/csv], whatever the type of the bundle and whatever
    the entry is, in both revisions; when the bundle decodes and its
    entries can be read, [script.js] queues one such file per entry and
    [part_000] one per [.csv] entry, named after the entry. *)
Theorem archive_entries_are_tagged_text_csv :
  forall (loadAsync : string -> option archive) (bundle : File) (s : page),
    is_zip bundle = true ->
    (exists added,
        files (snd (Script.processFile loadAsync bundle s)) = files s ++ added
        /\ Forall (fun f => type f = "text/csv") added)
    /\ (exists added,
           files (snd (Part000.processFile loadAsync bundle s))
           = files s ++ added
           /\ Forall (fun f => type f = "text/csv") added)
    /\ (forall buf zip,
           bytes bundle = Some buf ->
           loadAsync buf = Some zip ->
           Forall (fun e => snd e <> None) zip ->
           files (snd (Script.processFile loadAsync bundle s))
           = files s ++ map entry_file zip
           /\ files (snd (Part000.processFile loadAsync bundle s))
              = files s ++ map entry_file (filter is_csv_entry zip)).
Proof.
  intros loadAsync bundle s Hz.
  assert (Hnone : exists added : list File,
             files s = files s ++ added
             /\ Forall (fun f => type f = "text/csv") added).
  { exists []. now rewrite app_nil_r. }
  unfold is_zip in Hz.
  split; [|split].
  - unfold Script.processFile. rewrite Hz.
    unfold bind at 1. unfold arrayBuffer.
    destruct (bytes bundle) as [buf|]; simpl; [|exact Hnone].
    unfold bind at 1. unfold Script.JSZip_loadAsync.
    destruct (loadAsync buf) as [zip|]; simpl; [|exact Hnone].
    destruct (ScriptIntake.extract_adds zip false s) as [added [Hadd Hty]].
    exists added. split; [|exact Hty].
    unfold bind. destruct (Script.extract zip false s) as [[v|e] s1];
      simpl in *; [|exact Hadd].
    destruct (negb v); simpl; exact Hadd.
  - unfold Part000.processFile. rewrite Hz.
    unfold bind at 1. unfold arrayBuffer.
    destruct (bytes bundle) as [buf|]; simpl; [|exact Hnone].
    unfold bind at 1. unfold Part000.JSZip_loadAsync.
    destruct (loadAsync buf) as [zip|]; simpl; [|exact Hnone].
    apply LegacyIntake.legacy_extract_adds.
  - intros buf zip Hb Hl Hall. split.
    + unfold Script.processFile. rewrite Hz.
      unfold bind, arrayBuffer, Script.JSZip_loadAsync. rewrite Hb. simpl.
      rewrite Hl. simpl.
      rewrite (ScriptIntake.extract_settled zip false s Hall).
      destruct (negb _); reflexivity.
    + rewrite (LegacyIntake.legacy_processFile_decoded loadAsync bundle buf zip s
                 Hz Hb Hl).
      rewrite LegacyIntake.legacy_extract_settled; [reflexivity|].
      eapply Forall_impl; [|exact Hall]. intros e He _. exact He.
Qed.

Lemma archive_entries_are_tagged_text_csv_witness :
  files (snd (Script.processFile Demo.loadAsync Demo.mixed_zip initial))
  = [mkFile "prices/aapl.csv" "text/csv" (Some "20240101,1,2,0,1,10");
     mkFile "readme.txt" "text/csv" (Some "notes")]
  /\ files (snd (Part000.processFile Demo.loadAsync Demo.mixed_zip initial))
     = [mkFile "prices/aapl.csv" "text/csv" (Some "20240101,1,2,0,1,10")].
Proof.
  destruct (archive_entries_are_tagged_text_csv
              Demo.loadAsync Demo.mixed_zip initial) as [_ [_ H]].
  - reflexivity.
  - apply (H "PK:mixed"
             [("prices/aapl.csv", Some "20240101,1,2,0,1,10");
              ("readme.txt", Some "notes")]).
    + reflexivity.
    + reflexivity.
    + repeat constructor; discriminate.
Defined.

(** A batch without bundles, in both revisions.  In [part_000] the [.csv]
    items are queued in order, every other item raises its own
    "Unsupported type" notice naming it, the loop classifies every item,
    and the upload sends the queue, which holds the accepted items after
    whatever it held before.  In [script.js] there is no unsupported
    type: every item of the batch is queued and sent, and the intake
    raises no notice. *)
Theorem intake_of_plain_items :
  forall (loadAsync : string -> option archive) (batch : list File)
         (net : fetched) (s : page),
    Forall (fun f => is_zip f = false) batch ->
    (for_of batch (Part000.processFile loadAsync) s =
     (Return tt,
      mkPage (files s ++ filter is_csv batch) (rows s) (display s)
             (input_value s)
             (alerts s ++ map unsupported_notice
                            (filter (fun f => negb (is_csv f)) batch))
             (requests s))
     /\ requests (Part000.step loadAsync (Part000.Drop batch net) s) =
        requests s ++
          (if Nat.eqb (length (files s ++ filter is_csv batch)) 0 then []
           else [files s ++ filter is_csv batch]))
    /\ (for_of batch (Script.processFile loadAsync) s =
        (Return tt,
         mkPage (files s ++ batch) (rows s) (display s) (input_value s)
                (alerts s) (requests s))
        /\ requests (Script.step loadAsync (Script.Drop batch net) s) =
           requests s ++
             (if Nat.eqb (length (files s ++ batch)) 0 then []
              else [files s ++ batch])).
Proof.
  intros loadAsync batch net s Hplain. split; split.
  - apply LegacyIntake.legacy_intake_plain, Hplain.
  - unfold Part000.step, Part000.handle, Part000.on_files.
    rewrite (on_files_after_intake _ _ batch net s _
               (LegacyIntake.legacy_intake_plain loadAsync batch s Hplain)).
    rewrite LegacyUpload.legacy_doUpload_requests. reflexivity.
  - apply ScriptIntake.intake_plain, Hplain.
  - unfold Script.step, Script.handle, Script.on_files.
    rewrite (on_files_after_intake _ _ batch net s _
               (ScriptIntake.intake_plain loadAsync batch s Hplain)).
    rewrite ScriptIntake.doUpload_requests. reflexivity.
Qed.

Lemma intake_of_plain_items_witness :
  (for_of [Demo.a_csv; Demo.notes_txt; Demo.c_csv]
          (Part000.processFile Demo.loadAsync) initial =
   (Return tt,
    mkPage [Demo.a_csv; Demo.c_csv] [] "none" EmptyString
           ["Unsupported type: notes.txt"] [])
   /\ requests (Part000.step Demo.loadAsync
                  (Part000.Drop [Demo.a_csv; Demo.notes_txt; Demo.c_csv]
                                Demo.offline) initial)
      = [[Demo.a_csv; Demo.c_csv]])
  /\ (for_of [Demo.a_csv; Demo.notes_txt; Demo.c_csv]
             (Script.processFile Demo.loadAsync) initial =
      (Return tt,
       mkPage [Demo.a_csv; Demo.notes_txt; Demo.c_csv] [] "none" EmptyString
              [] [])
      /\ requests (Script.step Demo.loadAsync
                     (Script.Drop [Demo.a_csv; Demo.notes_txt; Demo.c_csv]
                                  Demo.offline) initial)
         = [[Demo.a_csv; Demo.notes_txt; Demo.c_csv]]).
Proof.
  apply (intake_of_plain_items
           Demo.loadAsync [Demo.a_csv; Demo.notes_txt; Demo.c_csv]
           Demo.offline initial).
  repeat constructor.
Defined.

(** C3, as stated, fails: after the drop of an undecodable bundle
    followed by a valid file, the valid file has not been queued, no
    request has been made and no row exists. *)
Lemma decode_failure_drops_the_rest_of_the_batch :
  let s' := Script.step Demo.loadAsync
              (Script.Drop [Demo.bad_zip; Demo.c_csv]
                           (Demo.ok_with [Demo.good "c.csv" "N/A"]))
              initial in
  ~ In Demo.c_csv (files s') /\ requests s' = [] /\ rows s' = [].
Proof.
  cbv zeta. split; [|split]; [|reflexivity|reflexivity].
  vm_compute. intros H. exact H.
Qed.

(** C3 (amended). A bundle that cannot be read or decoded makes the drop
    and change handlers of [script.js] stop where it stands: the handler
    ends with the exception and the page is as the items before the
    bundle left it.  The items after the bundle are not classified, the
    file input is not cleared, no request is made and no row is added;
    what the earlier items queued stays in [files]. *)
Theorem decode_failure_aborts_the_batch :
  forall (loadAsync : string -> option archive) (pre : list File)
         (bad : File) (post : list File) (net : fetched) (s s1 : page),
    for_of pre (Script.processFile loadAsync) s = (Return tt, s1) ->
    is_zip bad = true ->
    (bytes bad = None
     \/ exists buf, bytes bad = Some buf /\ loadAsync buf = None) ->
    exists e,
      Script.on_files loadAsync (pre ++ bad :: post) net s = (Throw e, s1)
      /\ requests s1 = requests s
      /\ rows s1 = rows s
      /\ display s1 = display s
      /\ input_value s1 = input_value s.
Proof.
  intros loadAsync pre bad post net s s1 Hpre Hz Hbad.
  destruct (ScriptIntake.processFile_undecodable loadAsync bad s1 Hz Hbad)
    as [e He].
  exists e. split.
  - unfold Script.on_files. unfold bind at 1.
    rewrite for_of_app, Hpre. simpl. unfold bind at 1. rewrite He.
    reflexivity.
  - assert (Hk : forall X (proj : page -> X),
               (forall f, keeps proj (push f)) ->
               (forall msg, keeps proj (alert msg)) ->
               proj s1 = proj s).
    { intros X proj Hp Ha.
      pose proof (ScriptIntake.intake_keeps proj Hp Ha loadAsync pre s) as H.
      rewrite Hpre in H. exact H. }
    repeat split; apply Hk; intros ? ?; reflexivity.
Qed.

Lemma decode_failure_aborts_the_batch_witness :
  exists e,
    Script.on_files Demo.loadAsync
      ([Demo.a_csv] ++ Demo.bad_zip :: [Demo.c_csv])
      (Demo.ok_with [Demo.good "a.csv" "N/A"; Demo.good "c.csv" "N/A"])
      initial
    = (Throw e, mkPage [Demo.a_csv] [] "none" EmptyString [] [])
    /\ requests (mkPage [Demo.a_csv] [] "none" EmptyString [] [])
       = requests initial
    /\ rows (mkPage [Demo.a_csv] [] "none" EmptyString [] []) = rows initial
    /\ display (mkPage [Demo.a_csv] [] "none" EmptyString [] [])
       = display initial
    /\ input_value (mkPage [Demo.a_csv] [] "none" EmptyString [] [])
       = input_value initial.
Proof.
  apply (decode_failure_aborts_the_batch
           Demo.loadAsync [Demo.a_csv] Demo.bad_zip [Demo.c_csv]
           (Demo.ok_with [Demo.good "a.csv" "N/A"; Demo.good "c.csv" "N/A"])
           initial (mkPage [Demo.a_csv] [] "none" EmptyString [] [])).
  - reflexivity.
  - reflexivity.
  - right. exists "garbage". split; reflexivity.
Defined.

End Intake.

(* ================================================================== *)
(** ** Sequences of events                                             *)
(* ================================================================== *)

Module Sessions.
Import Js Page Stated TableFacts Frame.
Local Open Scope js_scope.

Lemma table_step_consistent (s s' : page) (added : list string) :
  table_step s s' added -> table_consistent s -> table_consistent s'.
Proof.
  unfold table_consistent. intros [[Hr [Hd _]]|[_ Hd]] Hs.
  - now rewrite Hr, Hd.
  - exact Hd.
Qed.

Lemma script_upload_table (net : fetched) (s : page) :
  exists added,
    table_step s (snd (Script.doUpload net s)) added
    /\ Forall (fun tr =>
                 exists res results r,
                   net = FetchResolves res /\ json res = BodyResults results
                   /\ In r results /\ truthy (error r) = false
                   /\ tr = innerHTML r) added.
Proof.
  destruct (ScriptUpload.doUpload_table net s)
    as [[Hr Hd]|[res [results [Hnet [Hj [Hr Hd]]]]]].
  - exists []. split; [left; auto|constructor].
  - exists (map innerHTML (filter Script.is_valid results)).
    split; [right; auto|].
    apply Forall_forall. intros tr Htr.
    apply in_map_iff in Htr as [r [<- Hin]].
    apply filter_In in Hin as [Hin Hv].
    exists res, results, r. repeat split; auto.
    unfold Script.is_valid in Hv. now apply negb_true_iff in Hv.
Qed.

Lemma legacy_upload_table (net : fetched) (s : page) :
  exists added, table_step s (snd (Part000.doUpload net s)) added.
Proof.
  destruct (files s) as [|f fs] eqn:Efs.
  - rewrite LegacyUpload.legacy_doUpload_empty by exact Efs.
    exists []. left. auto.
  - assert (Hfs : files s <> []) by (rewrite Efs; discriminate).
    destruct (legacy_upload_throws net) as [e|] eqn:E.
    + rewrite (LegacyUpload.legacy_doUpload_throws net e s Hfs E).
      exists []. left. auto.
    + destruct net as [e|res]; [discriminate|]. simpl in E.
      destruct (json res) as [e| |results] eqn:Ej; try discriminate.
      rewrite (LegacyUpload.legacy_doUpload_parsed res results s Hfs Ej).
      exists (map innerHTML results). right. auto.
Qed.

Section Handlers.
Variable loadAsync : string -> option archive.

(** The drop and change handlers: the intake leaves the table alone, then
    the upload acts on it, unless the intake threw. *)
Lemma script_on_files_table (batch : list File) (net : fetched) (s : page) :
  exists added,
    table_step s (snd (Script.on_files loadAsync batch net s)) added
    /\ Forall (fun tr =>
                 exists res results r,
                   net = FetchResolves res /\ json res = BodyResults results
                   /\ In r results /\ truthy (error r) = false
                   /\ tr = innerHTML r) added.
Proof.
  unfold Script.on_files. unfold bind at 1.
  pose proof (ScriptIntake.intake_keeps rows (fun f s0 => eq_refl)
                (fun msg s0 => eq_refl) loadAsync batch s) as Hr.
  pose proof (ScriptIntake.intake_keeps display (fun f s0 => eq_refl)
                (fun msg s0 => eq_refl) loadAsync batch s) as Hd.
  destruct (for_of batch (Script.processFile loadAsync) s) as [[[]|e] s1];
    simpl in Hr, Hd.
  - unfold bind at 1. simpl.
    destruct (script_upload_table net
                (mkPage (files s1) (rows s1) (display s1) EmptyString
                        (alerts s1) (requests s1))) as [added [Ht Hall]].
    exists added. split; [|exact Hall].
    unfold table_step in *. simpl in Ht. rewrite <- Hr, <- Hd. exact Ht.
  - exists []. split; [left; simpl; auto|constructor].
Qed.

Lemma legacy_on_files_table (batch : list File) (net : fetched) (s : page) :
  exists added,
    table_step s (snd (Part000.on_files loadAsync batch net s)) added.
Proof.
  unfold Part000.on_files. unfold bind at 1.
  pose proof (LegacyIntake.legacy_intake_keeps rows (fun f s0 => eq_refl)
                (fun msg s0 => eq_refl) loadAsync batch s) as Hr.
  pose proof (LegacyIntake.legacy_intake_keeps display (fun f s0 => eq_refl)
                (fun msg s0 => eq_refl) loadAsync batch s) as Hd.
  destruct (for_of batch (Part000.processFile loadAsync) s) as [[[]|e] s1];
    simpl in Hr, Hd.
  - unfold bind at 1. simpl.
    destruct (legacy_upload_table net
                (mkPage (files s1) (rows s1) (display s1) EmptyString
                        (alerts s1) (requests s1))) as [added Ht].
    exists added.
    unfold table_step in *. simpl in Ht. rewrite <- Hr, <- Hd. exact Ht.
  - exists []. left. simpl. auto.
Qed.

Lemma click_consistent (rs : list string) (s : page) :
  table_consistent (snd ((set_rows rs ;; updateResultsVisibility) s)).
Proof. reflexivity. Qed.

(** Every handler of [script.js] keeps the display in step with the
    table. *)
Lemma script_step_consistent (e : Script.event) (s : page) :
  table_consistent s -> table_consistent (Script.step loadAsync e s).
Proof.
  intros Hs. destruct e as [batch net|batch net|i|]; unfold Script.step;
    simpl Script.handle.
  - destruct (script_on_files_table batch net s) as [added [Ht _]].
    exact (table_step_consistent _ _ _ Ht Hs).
  - destruct (script_on_files_table batch net s) as [added [Ht _]].
    exact (table_step_consistent _ _ _ Ht Hs).
  - apply (click_consistent (remove_nth i (rows s)) s).
  - apply (click_consistent [] s).
Qed.

Lemma legacy_step_consistent (e : Part000.event) (s : page) :
  table_consistent s -> table_consistent (Part000.step loadAsync e s).
Proof.
  intros Hs. destruct e as [batch net|batch net|i|]; unfold Part000.step;
    simpl Part000.handle.
  - destruct (legacy_on_files_table batch net s) as [added Ht].
    exact (table_step_consistent _ _ _ Ht Hs).
  - destruct (legacy_on_files_table batch net s) as [added Ht].
    exact (table_step_consistent _ _ _ Ht Hs).
  - apply (click_consistent (remove_nth i (rows s)) s).
  - apply (click_consistent [] s).
Qed.

(** From the loaded page, whatever the user does, and for responses
    whose items are as [item] describes them (objects whose fields have a
    string image), the results area is shown exactly when the table has a
    row. *)
Lemma visibility_invariant_script (events : list Script.event) :
  let s := run (Script.step loadAsync) events initial in
  visible s <-> 0 < length (rows s).
Proof.
  cbv zeta.
  assert (H : table_consistent (run (Script.step loadAsync) events initial)).
  { unfold run. generalize initial, (eq_refl : table_consistent initial).
    induction events as [|e events IH]; intros s Hs; simpl; [exact Hs|].
    apply IH, script_step_consistent, Hs. }
  unfold visible. rewrite H. apply shown_iff_rows.
Qed.

Lemma visibility_invariant_legacy (events : list Part000.event) :
  let s := run (Part000.step loadAsync) events initial in
  visible s <-> 0 < length (rows s).
Proof.
  cbv zeta.
  assert (H : table_consistent (run (Part000.step loadAsync) events initial)).
  { unfold run. generalize initial, (eq_refl : table_consistent initial).
    induction events as [|e events IH]; intros s Hs; simpl; [exact Hs|].
    apply IH, legacy_step_consistent, Hs. }
  unfold visible. rewrite H. apply shown_iff_rows.
Qed.

(** In [script.js] a drop or a selection never removes a row, and the
    rows it adds are rows of items of its response that carry no error
    indicator; rows disappear by the remove and clear buttons only. *)
Lemma script_rows_of_an_intake (batch : list File) (net : fetched) (s : page) :
  exists added,
    rows (Script.step loadAsync (Script.Drop batch net) s) = rows s ++ added
    /\ rows (Script.step loadAsync (Script.Change batch net) s)
       = rows s ++ added
    /\ Forall (fun tr =>
                 exists res results r,
                   net = FetchResolves res /\ json res = BodyResults results
                   /\ In r results /\ truthy (error r) = false
                   /\ tr = innerHTML r) added.
Proof.
  destruct (script_on_files_table batch net s) as [added [Ht Hall]].
  exists added. unfold Script.step. simpl Script.handle.
  assert (Hr : rows (snd (Script.on_files loadAsync batch net s))
               = rows s ++ added).
  { destruct Ht as [[Hr [_ ->]]|[Hr _]]; [now rewrite app_nil_r|exact Hr]. }
  auto.
Qed.

End Handlers.

End Sessions.

(* ================================================================== *)
(** ** Scenarios                                                       *)
(* ================================================================== *)

Module Scenarios.
Import Js Page Stated.

(** Two accepted files, both scored: two rows, the area shown, the queue
    empty, one request carrying both files. *)
Example two_files_scored :
  let s := Script.step Demo.loadAsync
             (Script.Drop [Demo.a_csv; Demo.c_csv]
                (Demo.ok_with [Demo.good "a.csv" "N/A";
                               Demo.good "c.csv" "https://charts/c"]))
             initial in
  length (rows s) = 2 /\ display s = "block" /\ files s = []
  /\ requests s = [[Demo.a_csv; Demo.c_csv]] /\ alerts s = [].
Proof. cbv zeta. repeat split. Qed.

(** The service answers 500: no row, the generic alert, the queue empty. *)
Example server_error_clears_the_queue :
  let s := Script.step Demo.loadAsync
             (Script.Drop [Demo.a_csv] Demo.server_error) initial in
  rows s = [] /\ display s = "none" /\ files s = []
  /\ alerts s = [Script.upload_error_message].
Proof. cbv zeta. repeat split. Qed.

(** An archive without entries is reported by [script.js] and nothing is
    sent. *)
Example empty_archive_is_reported :
  let s := Script.step Demo.loadAsync
             (Script.Drop [Demo.empty_zip] Demo.offline) initial in
  alerts s = [("ZIP file " ++ dq ++ "empty.zip" ++ dq
               ++ " contains no files.")%string]
  /\ files s = [] /\ requests s = [].
Proof. cbv zeta. repeat split. Qed.

(** The upload step on an empty queue does nothing, in both revisions. *)
Example upload_of_empty_queue :
  Script.doUpload Demo.offline initial = (Return tt, initial)
  /\ Part000.doUpload Demo.offline initial = (Return tt, initial).
Proof. split; reflexivity. Qed.

(** A failed upload followed by a new drop: [script.js] sends the new file
    alone, [part_000] sends the old file again with it. *)
Example second_drop_after_a_failure :
  requests (run (Script.step Demo.loadAsync)
              [Script.Drop [Demo.a_csv] Demo.offline;
               Script.Drop [Demo.c_csv] (Demo.ok_with [])] initial)
  = [[Demo.a_csv]; [Demo.c_csv]]
  /\ requests (run (Part000.step Demo.loadAsync)
                 [Part000.Drop [Demo.a_csv] Demo.offline;
                  Part000.Drop [Demo.c_csv] (Demo.ok_with [])] initial)
     = [[Demo.a_csv]; [Demo.a_csv; Demo.c_csv]].
Proof. split; reflexivity. Qed.

(** Removing one of two rows leaves the area shown; removing the other
    hides it. *)
Example remove_rows_one_by_one :
  let s2 := Script.step Demo.loadAsync
              (Script.Drop [Demo.a_csv; Demo.c_csv]
                 (Demo.ok_with [Demo.good "a.csv" "N/A";
                                Demo.good "c.csv" "N/A"]))
              initial in
  let s1 := Script.step Demo.loadAsync (Script.RemoveClick 0) s2 in
  let s0 := Script.step Demo.loadAsync (Script.RemoveClick 0) s1 in
  display s2 = "block" /\ display s1 = "block" /\ length (rows s1) = 1
  /\ display s0 = "none" /\ rows s0 = [].
Proof. cbv zeta. repeat split. Qed.

(** Path components are stripped on both separators. *)
Example basename_samples :
  basename "uploads/2024/aapl.csv" = "aapl.csv"
  /\ basename "C:\data\msft.csv" = "msft.csv"
  /\ basename "plain.csv" = "plain.csv"
  /\ basename "folder/" = EmptyString.
Proof. repeat split. Qed.

End Scenarios.

(* ================================================================== *)
(** ** Theme toggle and drag highlight                                 *)
(* ================================================================== *)

Module DomFacts.
Import Dom.

Lemma contains_app (t : string) (a b : classList) :
  contains t (a ++ b) = contains t a || contains t b.
Proof. apply existsb_app. Qed.

Lemma contains_add (t c : string) (cl : classList) :
  contains c (add t cl) = String.eqb c t || contains c cl.
Proof.
  unfold add. destruct (contains t cl) eqn:E.
  - destruct (String.eqb_spec c t) as [->|_]; [now rewrite E|reflexivity].
  - rewrite contains_app. simpl. rewrite orb_false_r. apply orb_comm.
Qed.

Lemma contains_remove (t c : string) (cl : classList) :
  contains c (remove t cl) = negb (String.eqb c t) && contains c cl.
Proof.
  unfold remove, contains. induction cl as [|x cl IH]; simpl.
  - now rewrite andb_false_r.
  - destruct (String.eqb_spec t x) as [->|Htx]; simpl.
    + rewrite IH. destruct (String.eqb_spec c x); simpl; reflexivity.
    + rewrite IH. destruct (String.eqb_spec c x) as [->|Hcx]; simpl.
      * destruct (String.eqb_spec x t) as [->|_]; [contradiction|reflexivity].
      * reflexivity.
Qed.

End DomFacts.

Module ThemeFacts.
Import Dom Theme DomFacts.

Lemma stored_dark_bool (b : bool) :
  stored_dark (Some (bool_to_string b)) = b.
Proof. destruct b; reflexivity. Qed.

Lemma open_page_is_dark (stored : option string) :
  is_dark (open_page stored) = stored_dark stored.
Proof.
  unfold open_page, on_DOMContentLoaded, is_dark. simpl.
  destruct (stored_dark stored); reflexivity.
Qed.

Lemma open_page_text (stored : option string) :
  textContent (open_page stored)
  = if stored_dark stored then sun else moon.
Proof.
  unfold open_page, on_DOMContentLoaded. simpl.
  destruct (stored_dark stored); reflexivity.
Qed.

Lemma open_page_stored (stored : option string) :
  darkMode (open_page stored) = stored.
Proof.
  unfold open_page, on_DOMContentLoaded. simpl.
  destruct (stored_dark stored); reflexivity.
Qed.

Lemma open_page_coherent (stored : option string) :
  coherent (open_page stored).
Proof.
  split.
  - rewrite open_page_text, open_page_is_dark. reflexivity.
  - rewrite open_page_is_dark, open_page_stored. reflexivity.
Qed.

Lemma click_is_dark (u : ui) :
  is_dark (on_toggle_click u) = negb (is_dark u).
Proof.
  unfold on_toggle_click, is_dark, toggle.
  destruct (contains "dark-mode" (body_classList u)) eqn:E; simpl.
  - rewrite contains_remove. reflexivity.
  - rewrite contains_add. reflexivity.
Qed.

Lemma click_fields (u : ui) :
  darkMode (on_toggle_click u) = Some (bool_to_string (negb (is_dark u)))
  /\ textContent (on_toggle_click u)
     = (if negb (is_dark u) then sun else moon).
Proof.
  unfold on_toggle_click, is_dark, toggle.
  destruct (contains "dark-mode" (body_classList u)); simpl; auto.
Qed.

Lemma click_coherent (u : ui) : coherent (on_toggle_click u).
Proof.
  destruct (click_fields u) as [Hs Ht]. split.
  - rewrite Ht, click_is_dark. reflexivity.
  - rewrite Hs, stored_dark_bool, click_is_dark. reflexivity.
Qed.

Lemma clicks_coherent (n : nat) (u : ui) :
  coherent u -> coherent (clicks n u).
Proof.
  revert u. induction n as [|n IH]; intros u Hu; simpl; [exact Hu|].
  apply IH, click_coherent.
Qed.

(** X1. The theme survives a reload: after any number of clicks on the
    toggle, opening the page again with what [localStorage] then holds
    gives the same theme, the same icon and the same stored value. *)
Theorem theme_survives_reload :
  forall (stored : option string) (n : nat),
    let u := clicks n (open_page stored) in
    let u' := open_page (darkMode u) in
    is_dark u' = is_dark u
    /\ textContent u' = textContent u
    /\ darkMode u' = darkMode u.
Proof.
  intros stored n. cbv zeta.
  destruct (clicks_coherent n _ (open_page_coherent stored)) as [Ht Hs].
  rewrite open_page_is_dark, open_page_text, open_page_stored, Ht, Hs.
  repeat split.
Qed.

(** X2. A click on the toggle flips the theme, stores the new theme as
    the string ["true"] or ["false"], shows the sun in dark mode and the
    moon otherwise, and leaves every other class of the body as it was;
    a second click brings the theme and the icon back. *)
Theorem toggle_click_flips_and_records :
  forall u : ui,
    let u1 := on_toggle_click u in
    let u2 := on_toggle_click u1 in
    is_dark u1 = negb (is_dark u)
    /\ darkMode u1 = Some (if is_dark u1 then "true" else "false")
    /\ textContent u1 = (if is_dark u1 then sun else moon)
    /\ (forall c, c <> "dark-mode" ->
                  contains c (body_classList u1)
                  = contains c (body_classList u))
    /\ is_dark u2 = is_dark u
    /\ textContent u2 = (if is_dark u then sun else moon).
Proof.
  intros u. cbv zeta.
  destruct (click_fields u) as [Hs Ht].
  destruct (click_fields (on_toggle_click u)) as [_ Ht2].
  rewrite !click_is_dark, negb_involutive in *.
  split; [reflexivity|]. split; [exact Hs|]. split; [exact Ht|].
  split; [|split; [reflexivity|exact Ht2]].
  intros c Hc. apply String.eqb_neq in Hc.
  unfold on_toggle_click, toggle.
  destruct (contains "dark-mode" (body_classList u)); simpl.
  - rewrite contains_remove, Hc. reflexivity.
  - rewrite contains_add, Hc. reflexivity.
Qed.


End ThemeFacts.

Module DropZoneFacts.
Import Dom DropZone DomFacts.

Lemma on_drag_highlight (e : string) (cl : classList) :
  In e drag_events ->
  contains "dragover" (on_drag e cl) = negb (String.eqb e "dragleave").
Proof.
  unfold drag_events, on_drag.
  intros [<-|[<-|[<-|[<-|[]]]]]; simpl prefix; cbv iota;
    rewrite ?contains_add, ?contains_remove; reflexivity.
Qed.

Lemma on_drag_other (e c : string) (cl : classList) :
  c <> "dragover" -> contains c (on_drag e cl) = contains c cl.
Proof.
  intros Hc. apply String.eqb_neq in Hc. unfold on_drag.
  destruct (prefix "dragl" e);
    rewrite ?contains_add, ?contains_remove, Hc; reflexivity.
Qed.

(** X4. After the listeners of any sequence of the four drag events, the
    drop zone carries the class [dragover] unless the last event was
    [dragleave]; in particular it still carries it after a [drop].  No
    other class of the drop zone is ever added or removed. *)
Theorem drag_highlight_follows_last_event :
  forall (events : list string) (e : string) (cl : classList),
    Forall (fun x => In x drag_events) (events ++ [e]) ->
    contains "dragover" (after (events ++ [e]) cl)
    = negb (String.eqb e "dragleave")
    /\ (forall c, c <> "dragover" ->
                  contains c (after (events ++ [e]) cl) = contains c cl).
Proof.
  intros events e cl Hall. unfold after. split.
  - rewrite fold_left_app. simpl. apply on_drag_highlight.
    apply Forall_app in Hall as [_ He]. now inversion He.
  - intros c Hc. generalize (events ++ [e]). intros l. revert cl.
    induction l as [|x l IH]; intros cl; simpl; [reflexivity|].
    rewrite IH. apply on_drag_other, Hc.
Qed.

Lemma drag_highlight_follows_last_event_witness :
  contains "dragover" (after (["dragenter"; "dragover"] ++ ["drop"]) ["zone"])
  = negb (String.eqb "drop" "dragleave")
  /\ (forall c, c <> "dragover" ->
                contains c (after (["dragenter"; "dragover"] ++ ["drop"])
                                  ["zone"])
                = contains c ["zone"]).
Proof.
  apply (drag_highlight_follows_last_event
           ["dragenter"; "dragover"] "drop" ["zone"]).
  repeat (apply Forall_cons; [simpl; auto 10|]). apply Forall_nil.
Defined.

End DropZoneFacts.

(* ================================================================== *)
(** ** More on the upload step                                         *)
(* ================================================================== *)

Module UploadFacts.
Import Js Page Stated Observed JsFacts TableFacts Frame.
Local Open Scope js_scope.

Lemma map_failed_names_throws (errs : list item) (s : page) :
  (exists r, In r errs /\ forall str, file_name r <> VStr str) ->
  Script.map_failed_names errs s = (Throw TypeError, s).
Proof.
  induction errs as [|r errs IH]; intros [bad [Hin Hbad]]; [destruct Hin|].
  simpl. unfold bind at 1. unfold Script.failed_name.
  destruct (file_name r) as [str|shown b] eqn:Er.
  - unfold ret at 1. unfold bind at 1. rewrite IH; [reflexivity|].
    exists bad. split; [|exact Hbad].
    destruct Hin as [<-|Hin]; [|exact Hin]. now contradiction (Hbad str).
  - reflexivity.
Qed.

Lemma names_or_not (errs : list item) :
  (exists names, map file_name errs = map VStr names)
  \/ (exists r, In r errs /\ forall str, file_name r <> VStr str).
Proof.
  induction errs as [|r errs [[names IH]|[bad [Hin Hbad]]]].
  - left. exists []. reflexivity.
  - destruct (file_name r) as [str|shown b] eqn:Er.
    + left. exists (str :: names). simpl. now rewrite Er, IH.
    + right. exists r. split; [now left|]. intros str. now rewrite Er.
  - right. exists bad. split; [now right|exact Hbad].
Qed.

Lemma failed_upload_run (net : fetched) (s : page) :
  files s <> [] ->
  script_upload_fails net = true ->
  Script.doUpload net s =
  (Return tt,
   mkPage [] (rows s) (display s) (input_value s)
          (alerts s ++ [Script.upload_error_message])
          (requests s ++ [files s])).
Proof.
  intros Hfs Hnet. unfold Script.doUpload. unfold bind at 1.
  unfold get_files. rewrite (nonempty_length _ Hfs).
  unfold try_catch, bind, fetch, json_results.
  destruct net as [e|res]; simpl in *; [reflexivity|].
  destruct (ok res); simpl in *; [|reflexivity].
  destruct (json res); simpl in *; try reflexivity. discriminate.
Qed.

(** X5. In [script.js], when the request fails, the status is not a
    success, the body is not JSON or it has no [results]: the table is
    left alone, the one generic alert is raised, the queue is emptied, and
    the one request that was made carried the whole queue. *)
Theorem script_failed_upload :
  forall (net : fetched) (s : page),
    files s <> [] ->
    script_upload_fails net = true ->
    Script.doUpload net s =
    (Return tt,
     mkPage [] (rows s) (display s) (input_value s)
            (alerts s ++ [Script.upload_error_message])
            (requests s ++ [files s])).
Proof. intros net s. apply failed_upload_run. Qed.

Lemma script_failed_upload_witness :
  Script.doUpload Demo.server_error Demo.pending =
  (Return tt,
   mkPage [] [] "none" EmptyString [Script.upload_error_message]
          [[Demo.a_csv]]).
Proof.
  apply (script_failed_upload Demo.server_error Demo.pending).
  - discriminate.
  - reflexivity.
Defined.

Lemma malformed_item_run (s : page) (res : response) (results : list item) :
  files s <> [] ->
  ok res = true ->
  json res = BodyResults results ->
  (exists r, In r (filter Script.is_error results)
             /\ forall str, file_name r <> VStr str) ->
  let validResults := filter Script.is_valid results in
  Script.doUpload (FetchResolves res) s =
  (Return tt,
   mkPage [] (rows s ++ map innerHTML validResults)
          (if Nat.ltb 0 (length validResults)
           then (if Nat.ltb 0 (length (rows s ++ map innerHTML validResults))
                 then "block" else "none")
           else display s)
          (input_value s)
          (alerts s ++ [Script.upload_error_message])
          (requests s ++ [files s])).
Proof.
  intros Hfs Hok Hjson Hbad validResults.
  assert (Herr : Nat.ltb 0 (length (filter Script.is_error results)) = true).
  { destruct Hbad as [r [Hin _]]. apply Nat.ltb_lt.
    destruct (filter Script.is_error results); [destruct Hin|simpl; lia]. }
  unfold Script.doUpload. unfold bind at 1. unfold get_files.
  rewrite (nonempty_length _ Hfs).
  unfold try_catch, bind, fetch, json_results.
  rewrite Hok, Hjson. simpl. fold validResults. rewrite Herr.
  destruct (Nat.ltb 0 (length validResults)) eqn:Ev; simpl.
  - rewrite appendResults_run. simpl. unfold bind.
    rewrite (map_failed_names_throws _ _ Hbad). reflexivity.
  - assert (Hv : validResults = []).
    { apply Nat.ltb_ge in Ev. destruct validResults; [reflexivity|].
      simpl in Ev. lia. }
    rewrite Hv. simpl. rewrite app_nil_r. unfold bind.
    rewrite (map_failed_names_throws _ _ Hbad). reflexivity.
Qed.



(** Every way [doUpload] of [script.js] can go on a queue that is not
    empty. *)
Lemma script_upload_shape (net : fetched) (s : page) :
  files s <> [] ->
  exists rows' display' raised,
    Script.doUpload net s =
    (Return tt,
     mkPage [] rows' display' (input_value s) (alerts s ++ raised)
            (requests s ++ [files s]))
    /\ length raised <= 1.
Proof.
  intros Hfs.
  destruct (script_upload_fails net) eqn:Ef.
  - rewrite (failed_upload_run net s Hfs Ef).
    do 3 eexists. split; [reflexivity|]. simpl. lia.
  - destruct net as [e|res]; [discriminate|]. simpl in Ef.
    apply orb_false_iff in Ef as [Hok Hj]. apply negb_false_iff in Hok.
    destruct (json res) as [e| |results] eqn:Ej; try discriminate.
    destruct (names_or_not (filter Script.is_error results))
      as [[names Hn]|Hbad].
    + rewrite (ScriptUpload.doUpload_success s res results names Hfs Hok Ej Hn).
      do 3 eexists. split; [reflexivity|].
      destruct (_ && _); simpl; lia.
    + rewrite (malformed_item_run s res results Hfs Hok Ej Hbad).
      do 3 eexists. split; [reflexivity|]. simpl. lia.
Qed.

Lemma legacy_upload_shape (net : fetched) (s : page) :
  files s <> [] ->
  exists files' rows' display' raised,
    Part000.doUpload net s =
    (Return tt,
     mkPage files' rows' display' (input_value s) (alerts s ++ raised)
            (requests s ++ [files s]))
    /\ length raised <= 1.
Proof.
  intros Hfs. destruct (legacy_upload_throws net) as [e|] eqn:E.
  - rewrite (LegacyUpload.legacy_doUpload_throws net e s Hfs E).
    do 4 eexists. split; [reflexivity|]. simpl. lia.
  - destruct net as [e|res]; [discriminate|]. simpl in E.
    destruct (json res) as [e| |results] eqn:Ej; try discriminate.
    rewrite (LegacyUpload.legacy_doUpload_parsed res results s Hfs Ej).
    exists [], (rows s ++ map innerHTML results),
      (if Nat.ltb 0 (length (rows s ++ map innerHTML results))
       then "block" else "none"), [].
    rewrite app_nil_r. split; [reflexivity|]. simpl. lia.
Qed.

(** On the responses that [item] describes: in both revisions [doUpload]
    never throws to its caller and does not touch the file input, and in
    [script.js] it leaves the queue empty. *)
Lemma upload_always_settles :
  forall (net : fetched) (s : page),
    (exists s',
        Script.doUpload net s = (Return tt, s')
        /\ files s' = []
        /\ input_value s' = input_value s)
    /\ (exists s',
           Part000.doUpload net s = (Return tt, s')
           /\ input_value s' = input_value s).
Proof.
  intros net s. destruct (files s) as [|f fs] eqn:Efs.
  - split; exists s.
    + unfold Script.doUpload, bind, get_files. rewrite Efs. simpl.
      repeat split; auto.
    + rewrite LegacyUpload.legacy_doUpload_empty by exact Efs.
      repeat split.
  - assert (Hfs : files s <> []) by (rewrite Efs; discriminate).
    split.
    + destruct (script_upload_shape net s Hfs) as [r [d [l [H Hl]]]].
      eexists. split; [exact H|]. simpl. repeat split.
    + destruct (legacy_upload_shape net s Hfs) as [q [r [d [l [H Hl]]]]].
      eexists. split; [exact H|]. simpl. repeat split.
Qed.

(** X8. In both revisions an upload makes no request when the queue is
    empty and otherwise exactly one, whose parts are the whole queue in
    queue order, also when the request then fails. *)
Theorem upload_sends_the_whole_queue_once :
  forall (net : fetched) (s : page),
    requests (snd (Script.doUpload net s))
    = requests s ++ (if Nat.eqb (length (files s)) 0 then [] else [files s])
    /\ requests (snd (Part000.doUpload net s))
       = requests s
         ++ (if Nat.eqb (length (files s)) 0 then [] else [files s]).
Proof.
  intros net s. split.
  - apply ScriptIntake.doUpload_requests.
  - apply LegacyUpload.legacy_doUpload_requests.
Qed.



End UploadFacts.

(* ================================================================== *)
(** ** More on the intake                                              *)
(* ================================================================== *)

Module IntakeFacts.
Import Js Page Stated Observed JsFacts TableFacts Frame.
Local Open Scope js_scope.

Lemma settled_all (zip : archive) :
  forallb settled zip = true -> Forall (fun e => snd e <> None) zip.
Proof.
  intros H. apply Forall_forall. intros e He.
  rewrite forallb_forall in H. specialize (H e He).
  unfold settled in H. destruct (snd e); [discriminate|discriminate H].
Qed.

Section WithJSZip.
Variable loadAsync : string -> option archive.

(** The entries read before the first one that cannot be read are queued
    when [extract] of [script.js] throws. *)
Lemma script_extract_stops (good : archive) (n : string) (rest : archive)
      (v : bool) (s : page) :
  Forall (fun e => snd e <> None) good ->
  exists e,
    Script.extract (good ++ (n, None) :: rest) v s =
    (Throw e,
     mkPage (files s ++ map entry_file good) (rows s) (display s)
            (input_value s) (alerts s) (requests s)).
Proof.
  intros H. revert v s.
  induction H as [|[m settled_m] good Hm _ IH]; intros v s.
  - simpl. eexists. unfold bind. simpl. rewrite app_nil_r, page_eta.
    reflexivity.
  - destruct settled_m as [blob|]; [|now contradiction Hm].
    cbn [app Script.extract]. unfold bind at 1. simpl.
    unfold bind at 1. simpl.
    destruct (IH true (snd (push (mkFile m "text/csv" (Some blob)) s)))
      as [e He].
    exists e. simpl in He. rewrite He. simpl. rewrite <- app_assoc.
    reflexivity.
Qed.

Lemma unsettled_split (zip : archive) :
  forallb settled zip = false ->
  exists good n rest,
    zip = good ++ (n, None) :: rest
    /\ Forall (fun e => snd e <> None) good.
Proof.
  induction zip as [|[m [blob|]] zip IH]; simpl; intros H.
  - discriminate.
  - destruct (IH H) as [good [n [rest [-> Hg]]]].
    exists ((m, Some blob) :: good), n, rest.
    split; [reflexivity|]. constructor; [discriminate|exact Hg].
  - exists [], m, zip. split; [reflexivity|constructor].
Qed.

Lemma script_item_run (f : File) (fs : list File) (ns : list string)
      (s : page) :
  script_item loadAsync f = Some (fs, ns) ->
  Script.processFile loadAsync f s =
  (Return tt,
   mkPage (files s ++ fs) (rows s) (display s) (input_value s)
          (alerts s ++ ns) (requests s)).
Proof.
  unfold script_item, Script.processFile, is_zip.
  destruct (endsWith (name f) ".zip").
  - unfold bind at 1. unfold arrayBuffer.
    destruct (bytes f) as [buf|]; [|discriminate]. simpl.
    unfold bind at 1. unfold Script.JSZip_loadAsync.
    destruct (loadAsync buf) as [zip|]; [|discriminate]. simpl.
    destruct (forallb settled zip) eqn:Ez; [|discriminate].
    intros [= <- <-]. unfold bind.
    rewrite (ScriptIntake.extract_settled zip false s (settled_all zip Ez)).
    destruct zip; simpl; rewrite ?app_nil_r; reflexivity.
  - intros [= <- <-]. simpl. rewrite app_nil_r. reflexivity.
Qed.

Lemma script_item_throws (f : File) (s : page) :
  script_item loadAsync f = None ->
  exists e s', Script.processFile loadAsync f s = (Throw e, s').
Proof.
  unfold script_item, Script.processFile, is_zip.
  destruct (endsWith (name f) ".zip"); [|discriminate].
  unfold bind at 1. unfold arrayBuffer.
  destruct (bytes f) as [buf|]; simpl; [|intros _; do 2 eexists; reflexivity].
  unfold bind at 1. unfold Script.JSZip_loadAsync.
  destruct (loadAsync buf) as [zip|]; simpl;
    [|intros _; do 2 eexists; reflexivity].
  destruct (forallb settled zip) eqn:Ez; [discriminate|]. intros _.
  destruct (unsettled_split zip Ez) as [good [n [rest [-> Hg]]]].
  destruct (script_extract_stops good n rest false s Hg) as [e He].
  unfold bind. rewrite He. do 2 eexists. reflexivity.
Qed.

Lemma script_batch_run (batch : list File) (fs : list File)
      (ns : list string) (s : page) :
  batch_items (script_item loadAsync) batch = Some (fs, ns) ->
  for_of batch (Script.processFile loadAsync) s =
  (Return tt,
   mkPage (files s ++ fs) (rows s) (display s) (input_value s)
          (alerts s ++ ns) (requests s)).
Proof.
  revert fs ns s. induction batch as [|f batch IH]; intros fs ns s; simpl.
  - intros [= <- <-]. rewrite !app_nil_r, page_eta. reflexivity.
  - destruct (script_item loadAsync f) as [[fs1 ns1]|] eqn:Ef; [|discriminate].
    destruct (batch_items (script_item loadAsync) batch) as [[fs2 ns2]|];
      [|discriminate].
    intros [= <- <-]. unfold bind.
    rewrite (script_item_run f fs1 ns1 s Ef).
    rewrite (IH fs2 ns2 _ eq_refl). simpl. rewrite <- !app_assoc.
    reflexivity.
Qed.

Lemma script_batch_throws (batch : list File) (s : page) :
  batch_items (script_item loadAsync) batch = None ->
  exists e s', for_of batch (Script.processFile loadAsync) s = (Throw e, s').
Proof.
  revert s. induction batch as [|f batch IH]; intros s; simpl; [discriminate|].
  destruct (script_item loadAsync f) as [[fs1 ns1]|] eqn:Ef.
  - destruct (batch_items (script_item loadAsync) batch) as [[fs2 ns2]|] eqn:Eb;
      [discriminate|]. intros _. unfold bind.
    rewrite (script_item_run f fs1 ns1 s Ef). apply IH. reflexivity.
  - intros _. unfold bind.
    destruct (script_item_throws f s Ef) as [e [s' He]]. rewrite He.
    do 2 eexists. reflexivity.
Qed.

(** X10. The intake of [script.js] on any batch.  It returns exactly when
    every bundle of the batch can be read and decoded with all its
    entries; the queue then grows by the items in batch order, each bundle
    replaced in place by one [text/csv] file per entry, and the only
    notices are those of the bundles without entries.  Otherwise the
    intake throws. *)
Theorem script_intake_in_order :
  forall (batch : list File) (s : page),
    match batch_items (script_item loadAsync) batch with
    | Some (fs, ns) =>
        for_of batch (Script.processFile loadAsync) s =
        (Return tt,
         mkPage (files s ++ fs) (rows s) (display s) (input_value s)
                (alerts s ++ ns) (requests s))
    | None =>
        exists e s',
          for_of batch (Script.processFile loadAsync) s = (Throw e, s')
    end.
Proof.
  intros batch s.
  destruct (batch_items (script_item loadAsync) batch) as [[fs ns]|] eqn:E.
  - apply script_batch_run, E.
  - apply script_batch_throws, E.
Qed.

(** X11. A bundle of [script.js] one of whose entries cannot be read: the
    entries before it have been queued and stay queued, no notice is
    raised, and [processFile] throws. *)
Theorem script_partial_bundle_stays_queued :
  forall (bundle : File) (buf : string) (good : archive) (n : string)
         (rest : archive) (s : page),
    is_zip bundle = true ->
    bytes bundle = Some buf ->
    loadAsync buf = Some (good ++ (n, None) :: rest) ->
    Forall (fun e => snd e <> None) good ->
    exists e,
      Script.processFile loadAsync bundle s =
      (Throw e,
       mkPage (files s ++ map entry_file good) (rows s) (display s)
              (input_value s) (alerts s) (requests s)).
Proof.
  intros bundle buf good n rest s Hz Hb Hl Hg.
  destruct (script_extract_stops good n rest false s Hg) as [e He].
  exists e.
  unfold Script.processFile. unfold is_zip in Hz. rewrite Hz.
  unfold bind at 1. unfold arrayBuffer. rewrite Hb. simpl.
  unfold bind at 1. unfold Script.JSZip_loadAsync. rewrite Hl. simpl.
  unfold bind. rewrite He. reflexivity.
Qed.

End WithJSZip.

Lemma script_partial_bundle_stays_queued_witness :
  exists e,
    Script.processFile Samples.loadAsync Samples.broken_zip initial =
    (Throw e,
     mkPage [mkFile "a.csv" "text/csv" (Some "1")] [] "none" EmptyString [] []).
Proof.
  apply (script_partial_bundle_stays_queued
           Samples.loadAsync Samples.broken_zip "PK:broken"
           [("a.csv", Some "1")] "b.csv" [("c.csv", Some "3")] initial).
  - reflexivity.
  - reflexivity.
  - reflexivity.
  - repeat constructor. discriminate.
Defined.

Section LegacyWithJSZip.
Variable loadAsync : string -> option archive.

Lemma legacy_extract_throws (zip : archive) (s : page) :
  forallb settled (filter is_csv_entry zip) = false ->
  exists e s', Part000.extract zip s = (Throw e, s').
Proof.
  revert s. induction zip as [|[n st] zip IH]; intros s; [discriminate|].
  cbn [filter Part000.extract]. unfold is_csv_entry at 1. simpl fst.
  unfold bind at 1.
  destruct (endsWith n ".csv"); cbn [when].
  - destruct st as [blob|]; cbn [forallb]; unfold settled at 1; simpl snd.
    + intros H. unfold bind at 1. simpl. apply IH. exact H.
    + intros _. simpl. do 2 eexists. reflexivity.
  - intros H. simpl. apply IH, H.
Qed.

Lemma legacy_item_run (f : File) (fs : list File) (ns : list string)
      (s : page) :
  legacy_item loadAsync f = Some (fs, ns) ->
  Part000.processFile loadAsync f s =
  (Return tt,
   mkPage (files s ++ fs) (rows s) (display s) (input_value s)
          (alerts s ++ ns) (requests s)).
Proof.
  unfold legacy_item. destruct (is_zip f) eqn:Hz.
  - destruct (bytes f) as [buf|] eqn:Hb; [|discriminate].
    destruct (loadAsync buf) as [zip|] eqn:Hl; [|discriminate].
    destruct (forallb settled (filter is_csv_entry zip)) eqn:Ez;
      [|discriminate].
    intros [= <- <-].
    rewrite (LegacyIntake.legacy_processFile_decoded loadAsync f buf zip s
               Hz Hb Hl).
    rewrite LegacyIntake.legacy_extract_settled.
    + rewrite app_nil_r. reflexivity.
    + apply Forall_forall. intros e He Hcsv.
      assert (Hin : In e (filter is_csv_entry zip))
        by (apply filter_In; auto).
      rewrite forallb_forall in Ez. specialize (Ez e Hin).
      unfold settled in Ez. destruct (snd e); [discriminate|discriminate Ez].
  - unfold Part000.processFile. unfold is_zip in Hz. rewrite Hz.
    change (endsWith (name f) ".csv") with (is_csv f).
    destruct (is_csv f); intros [= <- <-]; simpl; rewrite ?app_nil_r;
      reflexivity.
Qed.

Lemma legacy_item_throws (f : File) (s : page) :
  legacy_item loadAsync f = None ->
  exists e s', Part000.processFile loadAsync f s = (Throw e, s').
Proof.
  unfold legacy_item. destruct (is_zip f) eqn:Hz.
  - unfold Part000.processFile. unfold is_zip in Hz. rewrite Hz.
    unfold bind at 1. unfold arrayBuffer.
    destruct (bytes f) as [buf|]; simpl;
      [|intros _; do 2 eexists; reflexivity].
    unfold bind at 1. unfold Part000.JSZip_loadAsync.
    destruct (loadAsync buf) as [zip|]; simpl;
      [|intros _; do 2 eexists; reflexivity].
    destruct (forallb settled (filter is_csv_entry zip)) eqn:Ez;
      [discriminate|]. intros _. apply legacy_extract_throws, Ez.
  - destruct (is_csv f); discriminate.
Qed.

(** X12. The intake of [part_000] on any batch.  It returns exactly when
    every bundle can be read and decoded with all its [.csv] entries; the
    queue then grows, in batch order, by the [.csv] items and by one
    [text/csv] file per [.csv] entry of each bundle, the other entries
    being skipped without a notice, and each plain item that is not a
    [.csv] raises its "Unsupported type" notice.  Otherwise the intake
    throws. *)
Theorem legacy_intake_in_order :
  forall (batch : list File) (s : page),
    match batch_items (legacy_item loadAsync) batch with
    | Some (fs, ns) =>
        for_of batch (Part000.processFile loadAsync) s =
        (Return tt,
         mkPage (files s ++ fs) (rows s) (display s) (input_value s)
                (alerts s ++ ns) (requests s))
    | None =>
        exists e s',
          for_of batch (Part000.processFile loadAsync) s = (Throw e, s')
    end.
Proof.
  intros batch. induction batch as [|f batch IH]; intros s; simpl.
  - rewrite !app_nil_r, page_eta. reflexivity.
  - destruct (legacy_item loadAsync f) as [[fs1 ns1]|] eqn:Ef.
    + unfold bind. rewrite (legacy_item_run f fs1 ns1 s Ef).
      specialize (IH (mkPage (files s ++ fs1) (rows s) (display s)
                             (input_value s) (alerts s ++ ns1) (requests s))).
      destruct (batch_items (legacy_item loadAsync) batch) as [[fs2 ns2]|].
      * rewrite IH. simpl. rewrite <- !app_assoc. reflexivity.
      * exact IH.
    + unfold bind. destruct (legacy_item_throws f s Ef) as [e [s' He]].
      rewrite He. do 2 eexists. reflexivity.
Qed.

End LegacyWithJSZip.

End IntakeFacts.

(* ================================================================== *)
(** ** More on the drop and change handlers                            *)
(* ================================================================== *)

Module HandlerFacts.
Import Js Page Stated Observed JsFacts TableFacts Frame.
Local Open Scope js_scope.

Lemma script_upload_keeps_input (net : fetched) (s : page) :
  input_value (snd (Script.doUpload net s)) = input_value s.
Proof.
  destruct (files s) as [|f fs] eqn:Efs.
  - unfold Script.doUpload, bind, get_files. rewrite Efs. reflexivity.
  - assert (Hfs : files s <> []) by (rewrite Efs; discriminate).
    destruct (UploadFacts.script_upload_shape net s Hfs)
      as [r [d [l [H _]]]].
    rewrite H. reflexivity.
Qed.

Lemma legacy_upload_keeps_input (net : fetched) (s : page) :
  input_value (snd (Part000.doUpload net s)) = input_value s.
Proof.
  destruct (files s) as [|f fs] eqn:Efs.
  - rewrite LegacyUpload.legacy_doUpload_empty by exact Efs. reflexivity.
  - assert (Hfs : files s <> []) by (rewrite Efs; discriminate).
    destruct (UploadFacts.legacy_upload_shape net s Hfs)
      as [q [r [d [l [H _]]]]].
    rewrite H. reflexivity.
Qed.

Section WithJSZip.
Variable loadAsync : string -> option archive.

Lemma legacy_processFile_undecodable (file : File) (s : page) :
  is_zip file = true ->
  (bytes file = None
   \/ exists buf, bytes file = Some buf /\ loadAsync buf = None) ->
  exists e, Part000.processFile loadAsync file s = (Throw e, s).
Proof.
  intros Hz H. unfold Part000.processFile. unfold is_zip in Hz. rewrite Hz.
  unfold bind, arrayBuffer, Part000.JSZip_loadAsync.
  destruct H as [Hb|[buf [Hb Hl]]]; rewrite Hb; simpl.
  - eexists. reflexivity.
  - rewrite Hl. eexists. reflexivity.
Qed.

(** X13. The intake loop of either revision, whether it returns or
    throws, changes nothing but the queue and the alerts: it adds no row,
    leaves the display and the file input as they are, and makes no
    request. *)
Theorem intake_leaves_table_and_network_alone :
  forall (batch : list File) (s : page),
    let a := snd (for_of batch (Script.processFile loadAsync) s) in
    let b := snd (for_of batch (Part000.processFile loadAsync) s) in
    (rows a = rows s /\ display a = display s
     /\ requests a = requests s /\ input_value a = input_value s)
    /\ (rows b = rows s /\ display b = display s
        /\ requests b = requests s /\ input_value b = input_value s).
Proof.
  intros batch s. cbv zeta.
  assert (Hs : forall X (proj : page -> X),
             (forall f, keeps proj (push f)) ->
             (forall msg, keeps proj (alert msg)) ->
             proj (snd (for_of batch (Script.processFile loadAsync) s))
             = proj s).
  { intros X proj Hp Ha.
    apply (ScriptIntake.intake_keeps proj Hp Ha loadAsync batch s). }
  assert (Hl : forall X (proj : page -> X),
             (forall f, keeps proj (push f)) ->
             (forall msg, keeps proj (alert msg)) ->
             proj (snd (for_of batch (Part000.processFile loadAsync) s))
             = proj s).
  { intros X proj Hp Ha.
    apply (LegacyIntake.legacy_intake_keeps proj Hp Ha loadAsync batch s). }
  split; repeat split;
    first [apply Hs; intros ? ?; reflexivity
          |apply Hl; intros ? ?; reflexivity].
Qed.

(** X14. In both revisions the drop and change handlers clear the file
    input exactly when the intake loop returns, whatever the upload then
    does; when the loop throws, the handler ends with that exception, the
    file input keeps its value and the upload step is not reached. *)
Theorem file_input_cleared_after_intake :
  forall (batch : list File) (net : fetched) (s : page),
    (forall s1,
        for_of batch (Script.processFile loadAsync) s = (Return tt, s1) ->
        input_value (snd (Script.on_files loadAsync batch net s))
        = EmptyString)
    /\ (forall e s1,
           for_of batch (Script.processFile loadAsync) s = (Throw e, s1) ->
           Script.on_files loadAsync batch net s = (Throw e, s1)
           /\ input_value s1 = input_value s
           /\ requests s1 = requests s)
    /\ (forall s1,
           for_of batch (Part000.processFile loadAsync) s = (Return tt, s1) ->
           input_value (snd (Part000.on_files loadAsync batch net s))
           = EmptyString)
    /\ (forall e s1,
           for_of batch (Part000.processFile loadAsync) s = (Throw e, s1) ->
           Part000.on_files loadAsync batch net s = (Throw e, s1)
           /\ input_value s1 = input_value s
           /\ requests s1 = requests s).
Proof.
  intros batch net s. split; [|split; [|split]].
  - intros s1 H. unfold Script.on_files.
    rewrite (Intake.on_files_after_intake _ _ batch net s s1 H).
    rewrite script_upload_keeps_input. reflexivity.
  - intros e s1 H. split.
    + unfold Script.on_files, bind. rewrite H. reflexivity.
    + pose proof (ScriptIntake.intake_keeps input_value (fun f s0 => eq_refl)
                    (fun msg s0 => eq_refl) loadAsync batch s) as Hi.
      pose proof (ScriptIntake.intake_keeps requests (fun f s0 => eq_refl)
                    (fun msg s0 => eq_refl) loadAsync batch s) as Hr.
      rewrite H in Hi, Hr. auto.
  - intros s1 H. unfold Part000.on_files.
    rewrite (Intake.on_files_after_intake _ _ batch net s s1 H).
    rewrite legacy_upload_keeps_input. reflexivity.
  - intros e s1 H. split.
    + unfold Part000.on_files, bind. rewrite H. reflexivity.
    + pose proof (LegacyIntake.legacy_intake_keeps input_value
                    (fun f s0 => eq_refl) (fun msg s0 => eq_refl)
                    loadAsync batch s) as Hi.
      pose proof (LegacyIntake.legacy_intake_keeps requests
                    (fun f s0 => eq_refl) (fun msg s0 => eq_refl)
                    loadAsync batch s) as Hr.
      rewrite H in Hi, Hr. auto.
Qed.

Lemma script_aborted_batch (pre : list File) (bad : File) (post : list File)
      (net : fetched) (s : page) :
  Forall (fun f => is_zip f = false) pre ->
  is_zip bad = true ->
  (bytes bad = None
   \/ exists buf, bytes bad = Some buf /\ loadAsync buf = None) ->
  Script.step loadAsync (Script.Drop (pre ++ bad :: post) net) s =
  mkPage (files s ++ pre) (rows s) (display s) (input_value s) (alerts s)
         (requests s).
Proof.
  intros Hpre Hz Hbad. unfold Script.step, Script.handle, Script.on_files.
  unfold bind at 1. rewrite for_of_app.
  rewrite (ScriptIntake.intake_plain loadAsync pre s Hpre).
  cbn [for_of]. unfold bind at 1.
  destruct (ScriptIntake.processFile_undecodable loadAsync bad
              (mkPage (files s ++ pre) (rows s) (display s) (input_value s)
                      (alerts s) (requests s)) Hz Hbad) as [e He].
  rewrite He. reflexivity.
Qed.

(** X15. In [script.js], the plain files of a batch that was cut short by
    an undecodable bundle are not lost: they stay in the queue and go out
    with the files of the next drop, in one request, ahead of them. *)
Theorem script_stale_files_ride_along :
  forall (pre : list File) (bad : File) (post batch2 : list File)
         (net net2 : fetched) (s : page),
    files s = [] ->
    Forall (fun f => is_zip f = false) pre ->
    Forall (fun f => is_zip f = false) batch2 ->
    is_zip bad = true ->
    (bytes bad = None
     \/ exists buf, bytes bad = Some buf /\ loadAsync buf = None) ->
    pre ++ batch2 <> [] ->
    let s1 := Script.step loadAsync (Script.Drop (pre ++ bad :: post) net) s in
    let s2 := Script.step loadAsync (Script.Drop batch2 net2) s1 in
    files s1 = pre /\ requests s1 = requests s
    /\ requests s2 = requests s ++ [pre ++ batch2]
    /\ files s2 = [].
Proof.
  intros pre bad post batch2 net net2 s Hfs Hpre Hb2 Hz Hbad Hne. cbv zeta.
  rewrite (script_aborted_batch pre bad post net s Hpre Hz Hbad).
  rewrite Hfs. simpl app. split; [reflexivity|]. split; [reflexivity|].
  unfold Script.step, Script.handle, Script.on_files.
  rewrite (Intake.on_files_after_intake _ _ batch2 net2 _ _
             (ScriptIntake.intake_plain loadAsync batch2 _ Hb2)).
  cbn [files rows display alerts requests input_value].
  split.
  - rewrite ScriptIntake.doUpload_requests. simpl.
    rewrite (nonempty_length _ Hne). reflexivity.
  - destruct (ScriptUpload.doUpload_clears_queue net2
                (mkPage (pre ++ batch2) (rows s) (display s) EmptyString
                        (alerts s) (requests s))) as [s' [H Hq]].
    rewrite H. exact Hq.
Qed.

(** X16. [part_000] handles an undecodable bundle as [script.js] does:
    the handler ends with the exception where the bundle stands, the items
    before it have been classified, those after it have not, the file
    input is not cleared and no request is made. *)
Theorem legacy_decode_failure_aborts_the_batch :
  forall (pre : list File) (bad : File) (post : list File) (net : fetched)
         (s s1 : page),
    for_of pre (Part000.processFile loadAsync) s = (Return tt, s1) ->
    is_zip bad = true ->
    (bytes bad = None
     \/ exists buf, bytes bad = Some buf /\ loadAsync buf = None) ->
    exists e,
      Part000.on_files loadAsync (pre ++ bad :: post) net s = (Throw e, s1)
      /\ requests s1 = requests s
      /\ rows s1 = rows s
      /\ input_value s1 = input_value s.
Proof.
  intros pre bad post net s s1 Hpre Hz Hbad.
  destruct (legacy_processFile_undecodable bad s1 Hz Hbad) as [e He].
  exists e. split.
  - unfold Part000.on_files. unfold bind at 1.
    rewrite for_of_app, Hpre. simpl. unfold bind at 1. rewrite He.
    reflexivity.
  - assert (Hk : forall X (proj : page -> X),
               (forall f, keeps proj (push f)) ->
               (forall msg, keeps proj (alert msg)) ->
               proj s1 = proj s).
    { intros X proj Hp Ha.
      pose proof (LegacyIntake.legacy_intake_keeps proj Hp Ha loadAsync pre s)
        as H.
      rewrite Hpre in H. exact H. }
    repeat split; apply Hk; intros ? ?; reflexivity.
Qed.

End WithJSZip.

Lemma script_stale_files_ride_along_witness :
  let s1 := Script.step Demo.loadAsync
              (Script.Drop ([Demo.a_csv] ++ Demo.bad_zip :: [Demo.notes_txt])
                           Demo.offline) initial in
  let s2 := Script.step Demo.loadAsync
              (Script.Drop [Demo.c_csv] Demo.offline) s1 in
  files s1 = [Demo.a_csv] /\ requests s1 = requests initial
  /\ requests s2 = requests initial ++ [[Demo.a_csv] ++ [Demo.c_csv]]
  /\ files s2 = [].
Proof.
  apply (script_stale_files_ride_along
           Demo.loadAsync [Demo.a_csv] Demo.bad_zip [Demo.notes_txt]
           [Demo.c_csv] Demo.offline Demo.offline initial).
  - reflexivity.
  - repeat constructor.
  - repeat constructor.
  - reflexivity.
  - right. exists "garbage". split; reflexivity.
  - discriminate.
Defined.

Lemma legacy_decode_failure_aborts_the_batch_witness :
  exists e,
    Part000.on_files Demo.loadAsync
      ([Demo.a_csv; Demo.notes_txt] ++ Samples.folder :: [Demo.c_csv])
      Demo.offline initial
    = (Throw e,
       mkPage [Demo.a_csv] [] "none" EmptyString
              ["Unsupported type: notes.txt"] [])
    /\ requests (mkPage [Demo.a_csv] [] "none" EmptyString
                        ["Unsupported type: notes.txt"] [])
       = requests initial
    /\ rows (mkPage [Demo.a_csv] [] "none" EmptyString
                    ["Unsupported type: notes.txt"] [])
       = rows initial
    /\ input_value (mkPage [Demo.a_csv] [] "none" EmptyString
                           ["Unsupported type: notes.txt"] [])
       = input_value initial.
Proof.
  apply (legacy_decode_failure_aborts_the_batch
           Demo.loadAsync [Demo.a_csv; Demo.notes_txt] Samples.folder
           [Demo.c_csv] Demo.offline initial
           (mkPage [Demo.a_csv] [] "none" EmptyString
                   ["Unsupported type: notes.txt"] [])).
  - reflexivity.
  - reflexivity.
  - left. reflexivity.
Defined.

End HandlerFacts.

(* ================================================================== *)
(** ** More on the table and on the failed names                       *)
(* ================================================================== *)

Module TableMore.
Import Js Page Stated Observed JsFacts TableFacts.
Local Open Scope js_scope.

Lemma remove_nth_split {A} (i : nat) (l : list A) :
  remove_nth i l = firstn i l ++ skipn (S i) l.
Proof.
  revert i. induction l as [|x l IH]; intros [|i]; simpl; try reflexivity.
  - now rewrite IH.
Qed.

Lemma remove_nth_length {A} (i : nat) (l : list A) :
  i < length l -> length (remove_nth i l) = length l - 1.
Proof.
  revert i. induction l as [|x l IH]; intros [|i] H; simpl in *; try lia.
  rewrite IH by lia. lia.
Qed.

Lemma remove_nth_beyond {A} (i : nat) (l : list A) :
  length l <= i -> remove_nth i l = l.
Proof.
  revert i. induction l as [|x l IH]; intros [|i] H; simpl in *;
    try reflexivity; try lia.
  rewrite IH by lia. reflexivity.
Qed.

(** X17. The click on the remove button of row [i] deletes that row and
    no other, keeps the order of the rest, and touches neither the queue
    nor the alerts nor the requests.  With [i] a row of the table, the
    table has one row less and the area stays shown exactly when another
    row remains; with no such row the table is unchanged. *)
Theorem remove_click_deletes_one_row :
  forall (i : nat) (s : page),
    let s' := snd (on_remove_click i s) in
    rows s' = firstn i (rows s) ++ skipn (S i) (rows s)
    /\ files s' = files s /\ alerts s' = alerts s /\ requests s' = requests s
    /\ (i < length (rows s) ->
        length (rows s') = length (rows s) - 1
        /\ (visible s' <-> 2 <= length (rows s)))
    /\ (length (rows s) <= i -> rows s' = rows s).
Proof.
  intros i s. cbv zeta.
  unfold on_remove_click, updateResultsVisibility, bind, get_rows, set_rows,
    set_display, visible. simpl.
  split; [apply remove_nth_split|].
  do 3 (split; [reflexivity|]). split.
  - intros H. split; [apply remove_nth_length, H|].
    rewrite shown_iff_rows, (remove_nth_length i _ H). lia.
  - intros H. apply remove_nth_beyond, H.
Qed.


Lemma split_single (sep : ascii -> bool) (s seg : string) :
  split sep s = [seg] -> seg = s /\ has_char sep s = false.
Proof.
  revert seg. induction s as [|c s IH]; intros seg; simpl.
  - intros [= <-]. auto.
  - destruct (sep c).
    + intros H. exfalso. injection H as _ H. now apply (split_not_nil sep s).
    + destruct (split sep s) as [|seg0 [|seg1 segs]] eqn:E.
      * now contradiction (split_not_nil sep s).
      * intros [= <-]. destruct (IH seg0 eq_refl) as [-> Hn].
        simpl. auto.
      * discriminate.
Qed.

Lemma last_cons_cons {A} (x y : A) (l : list A) (d : A) :
  last (x :: y :: l) d = last (y :: l) d.
Proof. reflexivity. Qed.

(** The last segment of a split: free of separators, and either the whole
    string or what follows its last separator. *)
Lemma two_segments_have_a_separator (sep : ascii -> bool) (s : string)
      (seg seg1 : string) (segs : list string) :
  split sep s = seg :: seg1 :: segs -> has_char sep s <> false.
Proof.
  revert seg seg1 segs. induction s as [|c s IH]; intros seg seg1 segs;
    cbn [split has_char].
  - discriminate.
  - destruct (sep c); [discriminate|]. simpl.
    destruct (split sep s) as [|g [|g1 gs]] eqn:E; try discriminate.
    intros _. exact (IH g g1 gs eq_refl).
Qed.

Lemma split_last (sep : ascii -> bool) (s : string) :
  let b := last (split sep s) EmptyString in
  has_char sep b = false
  /\ ((b = s /\ has_char sep s = false)
      \/ (exists before c,
             sep c = true /\ s = (before ++ String c b)%string)).
Proof.
  cbv zeta. induction s as [|c s [Hb IH]].
  - simpl. split; [reflexivity|]. left. auto.
  - cbn [split has_char]. destruct (sep c) eqn:Ec.
    + destruct (split sep s) as [|seg segs] eqn:E;
        [now contradiction (split_not_nil sep s)|].
      rewrite last_cons_cons. split; [exact Hb|]. right.
      destruct IH as [[Hs _]|[before [c' [Hc' Hs]]]].
      * exists EmptyString, c. rewrite Hs. split; [exact Ec|reflexivity].
      * exists (String c before), c'. split; [exact Hc'|].
        cbn [append]. rewrite <- Hs. reflexivity.
    + destruct (split sep s) as [|seg [|seg1 segs]] eqn:E.
      * now contradiction (split_not_nil sep s).
      * destruct (split_single sep s seg E) as [-> Hn].
        simpl. rewrite Ec, Hn. split; [reflexivity|]. left. auto.
      * rewrite last_cons_cons. rewrite last_cons_cons in Hb, IH.
        split; [exact Hb|]. right.
        destruct IH as [[Hs Hn]|[before [c' [Hc' Hs]]]].
        -- exfalso. apply (two_segments_have_a_separator sep s seg seg1 segs E).
           exact Hn.
        -- exists (String c before), c'. split; [exact Hc'|].
           cbn [append]. rewrite <- Hs. reflexivity.
Qed.

(** X19. The name shown for a failed file contains neither ['/'] nor
    ['\']; it is the reported name itself when that has no separator, and
    otherwise the part of it after its last separator (the empty string
    when the reported name ends with one). *)
Theorem failed_name_is_last_path_segment :
  forall file : string,
    has_char is_sep (basename file) = false
    /\ ((basename file = file /\ has_char is_sep file = false)
        \/ (exists before c,
               is_sep c = true
               /\ file = (before ++ String c (basename file))%string)).
Proof. intros file. exact (split_last is_sep file). Qed.

End TableMore.

(* ================================================================== *)
(** ** Accepted and unsupported plain items                            *)
(* ================================================================== *)

Module AcceptedFacts.
Import Js Page Stated Accepted TableFacts RowFacts Frame.
Local Open Scope js_scope.






End AcceptedFacts.

(* ================================================================== *)
(** ** Malformed items and the display                                 *)
(* ================================================================== *)

Module RawFacts.
Import Js Page Stated Raw TableFacts Frame.
Local Open Scope js_scope.

Lemma raw_row_lift (r : item) : raw_row (lift_item r) = row_add (innerHTML r).
Proof.
  unfold raw_row, lift_item, raw_innerHTML, raw_link, innerHTML, link.
  cbn [raw_chart_link raw_file_name raw_std_dev raw_large_changes
       raw_avg_daily_return raw_annual_volatility raw_sharpe_ratio
       raw_max_drawdown raw_positive_days raw_moving_average
       raw_bollinger_pctB raw_rsi raw_volume_spikes raw_strict_neq
       raw_to_string].
  destruct (strict_neq (chart_link r) "N/A"); reflexivity.
Qed.

Lemma raw_loop_lift (rs : list item) (s : page) :
  for_of (map lift_item rs) raw_row s =
  for_of rs (fun r => row_add (innerHTML r)) s.
Proof.
  revert s. induction rs as [|r rs IH]; intros s; [reflexivity|].
  cbn [map for_of]. unfold bind. rewrite raw_row_lift.
  destruct (row_add (innerHTML r) s) as [[[]|e] s1]; [apply IH|reflexivity].
Qed.

Lemma raw_appendResults_lift (rs : list item) (s : page) :
  raw_appendResults (map lift_item rs) s = appendResults rs s.
Proof.
  unfold raw_appendResults, appendResults, bind. now rewrite raw_loop_lift.
Qed.

(** The loop stops at the first element it cannot render: the rows of the
    elements before it are in the table. *)
Lemma raw_loop_cut (good : list item) (bad : raw_item) (rest : list raw_item)
      (s : page) :
  breaks_the_loop bad ->
  for_of (map lift_item good ++ bad :: rest) raw_row s =
  (Throw TypeError,
   mkPage (files s) (rows s ++ map innerHTML good) (display s)
          (input_value s) (alerts s) (requests s)).
Proof.
  intros Hbad. rewrite for_of_app, raw_loop_lift, row_add_loop.
  cbn [for_of]. unfold bind.
  destruct bad as [|f]; simpl in *.
  - reflexivity.
  - rewrite Hbad. reflexivity.
Qed.

Lemma raw_appendResults_cut (good : list item) (bad : raw_item)
      (rest : list raw_item) (s : page) :
  breaks_the_loop bad ->
  raw_appendResults (map lift_item good ++ bad :: rest) s =
  (Throw TypeError,
   mkPage (files s) (rows s ++ map innerHTML good) (display s)
          (input_value s) (alerts s) (requests s)).
Proof.
  intros Hbad. unfold raw_appendResults, bind.
  now rewrite (raw_loop_cut good bad rest s Hbad).
Qed.

Lemma raw_filter_lift (p : raw_fields -> bool) (q : item -> bool)
      (rs : list item) (s : page) :
  (forall r f, lift_item r = Obj f -> p f = q r) ->
  raw_filter p (map lift_item rs) s = (Return (map lift_item (filter q rs)), s).
Proof.
  intros Hpq. induction rs as [|r rs IH]; [reflexivity|].
  cbn [map filter]. unfold lift_item at 1. cbn [raw_filter].
  unfold bind. rewrite IH. unfold ret.
  rewrite (Hpq r _ eq_refl). destruct (q r); reflexivity.
Qed.

Lemma raw_filter_app (p : raw_fields -> bool) (a b ka kb : list raw_item)
      (s : page) :
  raw_filter p a s = (Return ka, s) ->
  raw_filter p b s = (Return kb, s) ->
  raw_filter p (a ++ b) s = (Return (ka ++ kb), s).
Proof.
  revert ka. induction a as [|[|f] a IH]; intros ka Ha Hb; simpl in *.
  - injection Ha as <-. exact Hb.
  - discriminate.
  - unfold bind in *.
    destruct (raw_filter p a s) as [[k|e] s1] eqn:E; [|discriminate].
    unfold ret in Ha. injection Ha as <- ->.
    rewrite (IH k eq_refl Hb). unfold ret.
    destruct (p f); reflexivity.
Qed.

Lemma valid_lift (r : item) (f : raw_fields) :
  lift_item r = Obj f -> RawScript.raw_is_valid f = Script.is_valid r.
Proof. intros [= <-]. reflexivity. Qed.

Lemma error_lift (r : item) (f : raw_fields) :
  lift_item r = Obj f -> RawScript.raw_is_error f = Script.is_error r.
Proof. intros [= <-]. reflexivity. Qed.

Lemma raw_names_lift (errs : list item) (s : page) :
  RawScript.map_failed_names (map lift_item errs) s
  = Script.map_failed_names errs s.
Proof.
  revert s. induction errs as [|r errs IH]; intros s; [reflexivity|].
  cbn [map RawScript.map_failed_names Script.map_failed_names].
  unfold bind.
  assert (Hn : RawScript.failed_name (lift_item r) = Script.failed_name r).
  { unfold RawScript.failed_name, Script.failed_name, lift_item.
    cbn [raw_file_name]. destruct (file_name r); reflexivity. }
  rewrite Hn. destruct (Script.failed_name r s) as [[n|e] s1]; [|reflexivity].
  rewrite IH. reflexivity.
Qed.

(** On well-formed responses the embeddings over raw responses are the
    embeddings of [Script] and [Part000]. *)
Lemma script_upload_lift (net : fetched) (s : page) :
  RawScript.doUpload (lift_fetched net) s = Script.doUpload net s.
Proof.
  unfold RawScript.doUpload, Script.doUpload, bind, try_catch, get_files.
  destruct (Nat.eqb (length (files s)) 0); [reflexivity|].
  unfold raw_fetch, fetch.
  destruct net as [e|res]; cbn [lift_fetched]; [reflexivity|].
  cbn [raw_ok raw_status raw_text].
  destruct (ok res); cbn [negb when ret throw]; [|reflexivity].
  unfold raw_json_results, json_results.
  cbn [raw_json]. destruct (json res) as [e| |results]; cbn [lift_body];
    try reflexivity.
  cbn [ret].
  rewrite (raw_filter_lift _ Script.is_valid results _ valid_lift).
  rewrite (raw_filter_lift _ Script.is_error results _ error_lift).
  rewrite !length_map.
  destruct (Nat.ltb 0 (length (filter Script.is_valid results)));
    cbn [when ret]; rewrite ?raw_appendResults_lift;
    [destruct (appendResults (filter Script.is_valid results) _)
       as [[[]|e] s1]; [|reflexivity]|];
    (destruct (Nat.ltb 0 (length (filter Script.is_error results)));
     cbn [when]; [|reflexivity]; cbv beta; rewrite raw_names_lift;
     reflexivity).
Qed.

Lemma legacy_upload_lift (net : fetched) (s : page) :
  RawPart000.doUpload (lift_fetched net) s = Part000.doUpload net s.
Proof.
  unfold RawPart000.doUpload, Part000.doUpload, bind, try_catch, get_files.
  destruct (Nat.eqb (length (files s)) 0); [reflexivity|].
  unfold raw_fetch, fetch.
  destruct net as [e|res]; cbn [lift_fetched]; [reflexivity|].
  unfold raw_json_results, json_results.
  cbn [raw_json]. destruct (json res) as [e| |results]; cbn [lift_body];
    try reflexivity.
  cbn [ret]. rewrite raw_appendResults_lift. reflexivity.
Qed.

Section Handlers.
Variable loadAsync : string -> option archive.

Lemma script_step_lift (e : Script.event) (s : page) :
  RawScript.step loadAsync (RawScript.lift_event e) s
  = Script.step loadAsync e s.
Proof.
  unfold RawScript.step, Script.step.
  destruct e as [batch net|batch net|i|]; cbn [RawScript.lift_event
    RawScript.handle Script.handle]; try reflexivity;
    unfold RawScript.on_files, Script.on_files, bind;
    destruct (for_of batch (Script.processFile loadAsync) s) as [[[]|x] s1];
    try reflexivity; cbn [set_input_value]; now rewrite script_upload_lift.
Qed.

Lemma legacy_step_lift (e : Part000.event) (s : page) :
  RawPart000.step loadAsync (RawPart000.lift_event e) s
  = Part000.step loadAsync e s.
Proof.
  unfold RawPart000.step, Part000.step.
  destruct e as [batch net|batch net|i|]; cbn [RawPart000.lift_event
    RawPart000.handle Part000.handle]; try reflexivity;
    unfold RawPart000.on_files, Part000.on_files, bind;
    destruct (for_of batch (Part000.processFile loadAsync) s) as [[[]|x] s1];
    try reflexivity; cbn [set_input_value]; now rewrite legacy_upload_lift.
Qed.

Lemma script_run_lift (events : list Script.event) (s : page) :
  run (RawScript.step loadAsync) (map RawScript.lift_event events) s
  = run (Script.step loadAsync) events s.
Proof.
  unfold run. revert s. induction events as [|e events IH]; intros s;
    [reflexivity|].
  cbn [map fold_left]. rewrite script_step_lift. apply IH.
Qed.

Lemma legacy_run_lift (events : list Part000.event) (s : page) :
  run (RawPart000.step loadAsync) (map RawPart000.lift_event events) s
  = run (Part000.step loadAsync) events s.
Proof.
  unfold run. revert s. induction events as [|e events IH]; intros s;
    [reflexivity|].
  cbn [map fold_left]. rewrite legacy_step_lift. apply IH.
Qed.

End Handlers.

Lemma shown_lift (v : raw_value) : shown v -> exists v0, v = Shown v0.
Proof. destruct v as [v0|]; [exists v0; reflexivity|intros []]. Qed.

Lemma printable_lift (r : raw_item) :
  printable_item r -> exists r0, r = lift_item r0.
Proof.
  destruct r as [|f]; [intros []|]. destruct f. cbn.
  intros H. repeat match goal with
                   | H : _ /\ _ |- _ => destruct H
                   | H : shown _ |- _ =>
                       apply shown_lift in H; destruct H as [? ->]
                   end.
  eexists (mkItem _ _ _ _ _ _ _ _ _ _ _ _ _ _). reflexivity.
Qed.

Lemma printable_all_lift (rs : list raw_item) :
  Forall printable_item rs -> exists rs0, rs = map lift_item rs0.
Proof.
  induction 1 as [|r rs Hr _ [rs0 ->]]; [exists []; reflexivity|].
  destruct (printable_lift r Hr) as [r0 ->]. exists (r0 :: rs0). reflexivity.
Qed.

Lemma well_formed_lift (net : raw_fetched) :
  well_formed net -> exists net0, net = lift_fetched net0.
Proof.
  destruct net as [e|[o st tx b]]; cbn.
  - intros _. exists (FetchRejects e). reflexivity.
  - destruct b as [e| |rs]; intros H.
    + exists (FetchResolves (mkResponse o st tx (BodyRejects e))). reflexivity.
    + exists (FetchResolves (mkResponse o st tx BodyNoResults)). reflexivity.
    + destruct (printable_all_lift rs H) as [rs0 ->].
      exists (FetchResolves (mkResponse o st tx (BodyResults rs0))).
      reflexivity.
Qed.

Lemma script_events_lift (events : list RawScript.event) :
  Forall RawScript.well_formed_event events ->
  exists events0, events = map RawScript.lift_event events0.
Proof.
  induction 1 as [|e events He _ [es0 ->]]; [exists []; reflexivity|].
  assert (exists e0, e = RawScript.lift_event e0) as [e0 ->].
  { destruct e as [batch net|batch net|i|]; cbn in He.
    - destruct (well_formed_lift net He) as [n0 ->].
      exists (Script.Drop batch n0). reflexivity.
    - destruct (well_formed_lift net He) as [n0 ->].
      exists (Script.Change batch n0). reflexivity.
    - exists (Script.RemoveClick i). reflexivity.
    - exists Script.ClearClick. reflexivity. }
  exists (e0 :: es0). reflexivity.
Qed.

Lemma legacy_events_lift (events : list RawPart000.event) :
  Forall RawPart000.well_formed_event events ->
  exists events0, events = map RawPart000.lift_event events0.
Proof.
  induction 1 as [|e events He _ [es0 ->]]; [exists []; reflexivity|].
  assert (exists e0, e = RawPart000.lift_event e0) as [e0 ->].
  { destruct e as [batch net|batch net|i|]; cbn in He.
    - destruct (well_formed_lift net He) as [n0 ->].
      exists (Part000.Drop batch n0). reflexivity.
    - destruct (well_formed_lift net He) as [n0 ->].
      exists (Part000.Change batch n0). reflexivity.
    - exists (Part000.RemoveClick i). reflexivity.
    - exists Part000.ClearClick. reflexivity. }
  exists (e0 :: es0). reflexivity.
Qed.

Lemma raw_filter_around (p : raw_fields -> bool) (q : item -> bool)
      (before : list item) (bad : raw_fields) (after : list item) (s : page) :
  (forall r f, lift_item r = Obj f -> p f = q r) ->
  raw_filter p (map lift_item before ++ Obj bad :: map lift_item after) s =
  (Return (map lift_item (filter q before)
           ++ (if p bad then [Obj bad] else [])
           ++ map lift_item (filter q after)), s).
Proof.
  intros Hpq. apply raw_filter_app; [apply raw_filter_lift, Hpq|].
  cbn [raw_filter]. unfold bind.
  rewrite (raw_filter_lift p q after s Hpq). unfold ret.
  destruct (p bad); reflexivity.
Qed.

(** A success item of [script.js] that cannot be rendered: the rows of
    the success items before it are in the table, the display is as it
    was, and the [catch] empties the queue. *)
Lemma script_append_cut_short (s : page) (res : raw_response)
      (before : list item) (bad : raw_fields) (after : list item) :
  files s <> [] ->
  raw_ok res = true ->
  raw_json res
  = RBodyResults (map lift_item before ++ Obj bad :: map lift_item after) ->
  RawScript.raw_is_valid bad = true ->
  raw_innerHTML bad = None ->
  RawScript.doUpload (RFetchResolves res) s =
  (Return tt,
   mkPage [] (rows s ++ map innerHTML (filter Script.is_valid before))
          (display s) (input_value s)
          (alerts s ++ [Script.upload_error_message])
          (requests s ++ [files s])).
Proof.
  intros Hfs Hok Hjson Hvalid Hbad.
  assert (Herr : RawScript.raw_is_error bad = false).
  { unfold RawScript.raw_is_valid in Hvalid. unfold RawScript.raw_is_error.
    now apply negb_true_iff in Hvalid. }
  unfold RawScript.doUpload, bind, try_catch, get_files.
  rewrite (nonempty_length _ Hfs). unfold raw_fetch, raw_json_results.
  rewrite Hok, Hjson. cbn [negb when ret].
  rewrite (raw_filter_around _ Script.is_valid before bad after _ valid_lift).
  rewrite (raw_filter_around _ Script.is_error before bad after _ error_lift).
  rewrite Hvalid, Herr.
  assert (Hlen : Nat.ltb 0 (length (map lift_item (filter Script.is_valid before)
                                    ++ [Obj bad]
                                    ++ map lift_item
                                         (filter Script.is_valid after)))
                 = true).
  { apply Nat.ltb_lt. rewrite !length_app. simpl. lia. }
  rewrite Hlen. cbn [when app].
  rewrite raw_appendResults_cut by exact Hbad. reflexivity.
Qed.

(** An element of the response that [part_000] cannot render. *)
Lemma legacy_append_cut_short (s : page) (res : raw_response)
      (good : list item) (bad : raw_item) (rest : list raw_item) :
  files s <> [] ->
  raw_json res = RBodyResults (map lift_item good ++ bad :: rest) ->
  breaks_the_loop bad ->
  RawPart000.doUpload (RFetchResolves res) s =
  (Return tt,
   mkPage (files s) (rows s ++ map innerHTML good) (display s)
          (input_value s)
          (alerts s ++ [("Upload error: " ++ exn_to_string TypeError)%string])
          (requests s ++ [files s])).
Proof.
  intros Hfs Hjson Hbad.
  unfold RawPart000.doUpload, bind, try_catch, get_files.
  rewrite (nonempty_length _ Hfs). unfold raw_fetch, raw_json_results.
  rewrite Hjson. cbn [ret].
  rewrite raw_appendResults_cut by exact Hbad. reflexivity.
Qed.

(** X20. In [script.js], from the loaded page and after any sequence of
    drop, change, remove-click and clear-click events in which every item
    of every response is an object whose fields have a string image, the
    results area is shown exactly when the table has a row.  The condition
    is needed: a success item with a field that has no string image stops
    [appendResults] after the rows of the success items before it have
    been added and before the display is recomputed, so the table has
    grown and the display is as it was. *)
Theorem script_visibility_with_printable_items :
  forall loadAsync : string -> option archive,
    (forall events : list RawScript.event,
        Forall RawScript.well_formed_event events ->
        let s := run (RawScript.step loadAsync) events initial in
        visible s <-> 0 < length (rows s))
    /\ (forall (s : page) (res : raw_response) (before : list item)
               (bad : raw_fields) (after : list item),
           files s <> [] ->
           raw_ok res = true ->
           raw_json res
           = RBodyResults (map lift_item before ++ Obj bad
                           :: map lift_item after) ->
           RawScript.raw_is_valid bad = true ->
           raw_innerHTML bad = None ->
           let s' := snd (RawScript.doUpload (RFetchResolves res) s) in
           rows s' = rows s ++ map innerHTML (filter Script.is_valid before)
           /\ display s' = display s
           /\ files s' = []).
Proof.
  intros loadAsync. split.
  - intros events Hwf. cbv zeta.
    destruct (script_events_lift events Hwf) as [events0 ->].
    rewrite script_run_lift.
    apply (Sessions.visibility_invariant_script loadAsync events0).
  - intros s res before bad after Hfs Hok Hjson Hvalid Hbad. cbv zeta.
    rewrite (script_append_cut_short s res before bad after
               Hfs Hok Hjson Hvalid Hbad).
    repeat split.
Qed.

(** X21. The same for [part_000], where the element that stops
    [appendResults] may also be [null] and need not be a success item;
    the queue is then kept as well. *)
Theorem legacy_visibility_with_printable_items :
  forall loadAsync : string -> option archive,
    (forall events : list RawPart000.event,
        Forall RawPart000.well_formed_event events ->
        let s := run (RawPart000.step loadAsync) events initial in
        visible s <-> 0 < length (rows s))
    /\ (forall (s : page) (res : raw_response) (good : list item)
               (bad : raw_item) (rest : list raw_item),
           files s <> [] ->
           raw_json res = RBodyResults (map lift_item good ++ bad :: rest) ->
           breaks_the_loop bad ->
           let s' := snd (RawPart000.doUpload (RFetchResolves res) s) in
           rows s' = rows s ++ map innerHTML good
           /\ display s' = display s
           /\ files s' = files s).
Proof.
  intros loadAsync. split.
  - intros events Hwf. cbv zeta.
    destruct (legacy_events_lift events Hwf) as [events0 ->].
    rewrite legacy_run_lift.
    apply (Sessions.visibility_invariant_legacy loadAsync events0).
  - intros s res good bad rest Hfs Hjson Hbad. cbv zeta.
    rewrite (legacy_append_cut_short s res good bad rest Hfs Hjson Hbad).
    repeat split.
Qed.

(** A hidden area over a table with a row: the second item of the response
    is [null] (for [part_000]) or has a field without a string image (for
    [script.js]). *)
Example rows_in_a_hidden_area :
  let unprintable :=
    mkRaw (Shown undefined) (Shown (VStr "b.csv")) (Shown (VStr "N/A"))
          Unprintable (Shown undefined) (Shown undefined) (Shown undefined)
          (Shown undefined) (Shown undefined) (Shown undefined)
          (Shown undefined) (Shown undefined) (Shown undefined)
          (Shown undefined) in
  let ok_raw results :=
    RFetchResolves (mkRawResponse true 200 EmptyString (RBodyResults results)) in
  let a := RawScript.step Demo.loadAsync
             (RawScript.Drop [Demo.a_csv]
                (ok_raw [lift_item (Demo.good "a.csv" "N/A"); Obj unprintable]))
             initial in
  let b := RawPart000.step Demo.loadAsync
             (RawPart000.Drop [Demo.a_csv]
                (ok_raw [lift_item (Demo.good "a.csv" "N/A"); Null]))
             initial in
  (length (rows a) = 1 /\ display a = "none" /\ files a = [])
  /\ (length (rows b) = 1 /\ display b = "none" /\ files b = [Demo.a_csv]).
Proof. cbv zeta. repeat split. Qed.

Lemma try_catch_settles (m : M unit) (h : exn -> M unit) (s : page) :
  (forall e s0, fst (h e s0) = Return tt) ->
  fst (try_catch m h s) = Return tt.
Proof.
  intros Hh. unfold try_catch. destruct (m s) as [[[]|e] s1]; [reflexivity|].
  apply Hh.
Qed.

Lemma try_catch_clears (m : M unit) (h : exn -> M unit) (s : page) :
  clears m -> (forall e, clears (h e)) ->
  (forall e s0, fst (h e s0) = Return tt) ->
  files (snd (try_catch m h s)) = [].
Proof.
  intros Hm Hh Hr. unfold try_catch. specialize (Hm s).
  destruct (m s) as [[[]|e] s1]; [exact Hm|].
  specialize (Hh e s1). specialize (Hr e s1).
  destruct (h e s1) as [[[]|e'] s2]; [exact Hh|discriminate Hr].
Qed.

Section KeepsRaw.
Context {X : Type} (proj : page -> X).
Hypothesis keeps_rows : forall rs, keeps proj (set_rows rs).
Hypothesis keeps_display : forall d, keeps proj (set_display d).
Hypothesis keeps_alert : forall msg, keeps proj (alert msg).
Hypothesis keeps_files : forall fs, keeps proj (set_files fs).
Hypothesis keeps_fetch : forall fd net, keeps proj (raw_fetch fd net).

Lemma raw_appendResults_keeps (results : list raw_item) :
  keeps proj (raw_appendResults results).
Proof.
  unfold raw_appendResults. apply keeps_bind.
  - apply keeps_for_of. intros [|f]; [apply keeps_throw|]. unfold raw_row.
    destruct (raw_innerHTML f); [|apply keeps_throw].
    unfold row_add. apply keeps_bind; [intros s0; reflexivity|].
    intros rs. apply keeps_rows.
  - intros _. unfold updateResultsVisibility.
    apply keeps_bind; [intros s0; reflexivity|]. intros rs.
    apply keeps_display.
Qed.

Lemma raw_filter_keeps (p : raw_fields -> bool) (rs : list raw_item) :
  keeps proj (raw_filter p rs).
Proof.
  induction rs as [|[|f] rs IH]; cbn [raw_filter].
  - apply keeps_ret.
  - apply keeps_throw.
  - apply keeps_bind; [exact IH|intros kept; apply keeps_ret].
Qed.

Lemma raw_names_keeps (rs : list raw_item) :
  keeps proj (RawScript.map_failed_names rs).
Proof.
  induction rs as [|r rs IH]; cbn [RawScript.map_failed_names].
  - apply keeps_ret.
  - apply keeps_bind.
    + unfold RawScript.failed_name. destruct r as [|f]; [apply keeps_throw|].
      destruct (raw_file_name f) as [[str|shown b]|];
        first [apply keeps_ret|apply keeps_throw].
    + intros n. apply keeps_bind; [exact IH|intros; apply keeps_ret].
Qed.

Lemma raw_json_keeps (res : raw_response) : keeps proj (raw_json_results res).
Proof.
  unfold raw_json_results.
  destruct (raw_json res); first [apply keeps_ret|apply keeps_throw].
Qed.

Lemma raw_script_upload_keeps (net : raw_fetched) :
  keeps proj (RawScript.doUpload net).
Proof.
  unfold RawScript.doUpload. apply keeps_bind; [intros s0; reflexivity|].
  intros fs. destruct (Nat.eqb (length fs) 0); [apply keeps_ret|].
  apply keeps_try_catch.
  - apply keeps_bind; [apply keeps_fetch|intros res].
    apply keeps_bind; [apply keeps_when, keeps_throw|intros _].
    apply keeps_bind; [apply raw_json_keeps|intros results].
    apply keeps_bind; [apply raw_filter_keeps|intros valid].
    apply keeps_bind; [apply raw_filter_keeps|intros errs].
    apply keeps_bind; [apply keeps_when, raw_appendResults_keeps|intros _].
    apply keeps_bind; [|intros _; apply keeps_files].
    apply keeps_when, keeps_bind; [apply raw_names_keeps|intros names].
    apply keeps_when, keeps_alert.
  - intros e. apply keeps_bind; [apply keeps_alert|intros _; apply keeps_files].
Qed.

Lemma raw_legacy_upload_keeps (net : raw_fetched) :
  keeps proj (RawPart000.doUpload net).
Proof.
  unfold RawPart000.doUpload. apply keeps_bind; [intros s0; reflexivity|].
  intros fs. destruct (Nat.eqb (length fs) 0); [apply keeps_ret|].
  apply keeps_try_catch.
  - apply keeps_bind; [apply keeps_fetch|intros res].
    apply keeps_bind; [apply raw_json_keeps|intros results].
    apply keeps_bind; [apply raw_appendResults_keeps|intros _].
    apply keeps_files.
  - intros e. apply keeps_alert.
Qed.

End KeepsRaw.

(** Also when an element of the response is [null] or cannot be rendered,
    [doUpload] returns normally and leaves the file input alone, in both
    revisions, and [script.js] leaves the queue empty. *)
Lemma raw_upload_always_settles (net : raw_fetched) (s : page) :
  (fst (RawScript.doUpload net s) = Return tt
   /\ files (snd (RawScript.doUpload net s)) = []
   /\ input_value (snd (RawScript.doUpload net s)) = input_value s)
  /\ (fst (RawPart000.doUpload net s) = Return tt
      /\ input_value (snd (RawPart000.doUpload net s)) = input_value s).
Proof.
  assert (Hfetch : forall fd n, keeps input_value (raw_fetch fd n)).
  { intros fd n s0. unfold raw_fetch. destruct n; reflexivity. }
  split; [split; [|split]|split].
  - unfold RawScript.doUpload. unfold bind at 1. unfold get_files.
    destruct (Nat.eqb (length (files s)) 0); [reflexivity|].
    apply try_catch_settles. intros e s0. reflexivity.
  - unfold RawScript.doUpload. unfold bind at 1. unfold get_files.
    destruct (Nat.eqb (length (files s)) 0) eqn:E.
    + simpl. apply Nat.eqb_eq in E. now destruct (files s).
    + apply try_catch_clears.
      * repeat (apply ScriptUpload.clears_bind; intros).
        apply ScriptUpload.clears_set_files_nil.
      * intros e s0. reflexivity.
      * intros e s0. reflexivity.
  - apply (raw_script_upload_keeps input_value); try (intros ? ?; reflexivity).
    exact Hfetch.
  - unfold RawPart000.doUpload. unfold bind at 1. unfold get_files.
    destruct (Nat.eqb (length (files s)) 0); [reflexivity|].
    apply try_catch_settles. intros e s0. reflexivity.
  - apply (raw_legacy_upload_keeps input_value); try (intros ? ?; reflexivity).
    exact Hfetch.
Qed.


(** X7. In both revisions [doUpload] never throws to its caller, whatever
    the network and the response do (an element that is [null] or cannot
    be rendered included), and does not touch the file input.  In
    [script.js] it also leaves the queue empty in every case. *)
Theorem upload_settles_on_every_response :
  forall (net : fetched) (raw : raw_fetched) (s : page),
    (exists s',
        Script.doUpload net s = (Return tt, s')
        /\ files s' = []
        /\ input_value s' = input_value s)
    /\ (exists s',
           Part000.doUpload net s = (Return tt, s')
           /\ input_value s' = input_value s)
    /\ (exists s',
           RawScript.doUpload raw s = (Return tt, s')
           /\ files s' = []
           /\ input_value s' = input_value s)
    /\ (exists s',
           RawPart000.doUpload raw s = (Return tt, s')
           /\ input_value s' = input_value s).
Proof.
  intros net raw s.
  destruct (UploadFacts.upload_always_settles net s) as [Hs Hl].
  destruct (raw_upload_always_settles raw s) as [[R1 [R2 R3]] [L1 L2]].
  split; [exact Hs|]. split; [exact Hl|]. split.
  - destruct (RawScript.doUpload raw s) as [o s'] eqn:E. simpl in *.
    subst o. exists s'. auto.
  - destruct (RawPart000.doUpload raw s) as [o s'] eqn:E. simpl in *.
    subst o. exists s'. auto.
Qed.

End RawFacts.
